(** * ifsbench: the experiment-file registry of [ifsbench/benchmark.py]

    A shallow embedding of [InputFile], [ExperimentFiles],
    [SpecialRelativePath] and the destination loop of
    [ExperimentFilesBenchmark.from_experiment_files], followed by the
    properties of the manifest encoding, of file identity, of the rebase
    against source directories and of the path rewrite rules.

    Conventions of the embedding:
    - a Python [str] is a [string]; [None] is the [None] of [option];
    - a [dict] is an association list in insertion order with unique keys;
    - a [set] of [InputFile] is a list in iteration order, with [add]
      written out from [__hash__] and [__eq__];
    - an exception is a value of [exn]; a call that may raise returns a
      [result]; a method that mutates its receiver or its argument returns
      the new state next to its [result]. *)

From Stdlib Require Import String Ascii List ZArith Bool Arith Lia.
Import ListNotations.
Open Scope string_scope.
Open Scope list_scope.

(* ================================================================== *)
(** ** Python values: exceptions, results, dictionaries *)

Module Py.

(** The exception classes raised on the paths that are modelled.  The
    payload is the message (for [KeyError]: the key). *)
Inductive exn : Type :=
| ValueError (msg : string)
| KeyError (key : string)
| AssertionError
| CalledProcessError
| FileNotFoundError.

Inductive result (A : Type) : Type :=
| Ok (a : A)
| Raise (e : exn).
Arguments Ok {A} a.
Arguments Raise {A} e.

Definition bind {A B : Type} (m : result A) (k : A -> result B) : result B :=
  match m with
  | Ok a => k a
  | Raise e => Raise e
  end.


(** Truth value of [None]-or-[str] and of [None]-or-[int]: [None], the
    empty string and [0] are false. *)
Definition truthy_str (o : option string) : bool :=
  match o with
  | Some s => negb (String.eqb s "")
  | None => false
  end.

Definition truthy_int (o : option Z) : bool :=
  match o with
  | Some z => negb (Z.eqb z 0)
  | None => false
  end.

Definition opt_str_eqb (a b : option string) : bool :=
  match a, b with
  | Some x, Some y => String.eqb x y
  | None, None => true
  | _, _ => false
  end.

(** [sub in s] on strings. *)
Fixpoint contains (sub s : string) : bool :=
  String.prefix sub s ||
  match s with
  | EmptyString => false
  | String _ s' => contains sub s'
  end.

(** *** dict *)

Definition dict (V : Type) : Type := list (string * V).

Definition keys {V} (d : dict V) : list string := map fst d.

Fixpoint get {V} (k : string) (d : dict V) : option V :=
  match d with
  | [] => None
  | (k', v) :: d' => if String.eqb k k' then Some v else get k d'
  end.

(** [d[k] = v]: an existing key keeps its position, a new key goes last. *)
Fixpoint setitem {V} (k : string) (v : V) (d : dict V) : dict V :=
  match d with
  | [] => [(k, v)]
  | (k', v') :: d' =>
      if String.eqb k k' then (k, v) :: d' else (k', v') :: setitem k v d'
  end.

(** The keys of a dictionary after an assignment to key [k]. *)
Definition add_key (acc : list string) (k : string) : list string :=
  if existsb (String.eqb k) acc then acc else acc ++ [k].

(** [d.update(other)] *)
Definition update {V} (d other : dict V) : dict V :=
  fold_left (fun acc kv => setitem (fst kv) (snd kv) acc) other d.

(** [d.popitem()]: removes and returns the pair inserted last; [None]
    stands for the [KeyError] of an empty dictionary. *)
Fixpoint popitem {V} (d : dict V) : option ((string * V) * dict V) :=
  match d with
  | [] => None
  | kv :: d' =>
      match popitem d' with
      | None => Some (kv, [])
      | Some (last, rest) => Some (last, kv :: rest)
      end
  end.

Definition popitem_empty_msg : string := "popitem(): dictionary is empty".

(** [bool(d)] *)
Definition nonempty {A} (l : list A) : bool :=
  match l with
  | [] => false
  | _ :: _ => true
  end.

End Py.

Import Py.

Notation "x <- m ;; k" := (Py.bind m (fun x => k))
  (at level 61, m at next level, right associativity).

(* ================================================================== *)
(** ** pathlib: pure POSIX paths

    A path is its anchor (absolute or not) and its list of segments.
    [of_str] is [Path(s)], [str] is [str(p)].  The segments that pathlib
    itself produces are non-empty, are not ["."] and hold no ["/"]
    ([seg_ok]); a leading double slash is not distinguished from a single
    one. *)

Module Path.

Record t : Type := mk { absolute : bool; parts : list string }.

Definition slash : ascii := "/"%char.

(** The pieces of [s] between slashes. *)
Fixpoint split (s : string) : list string :=
  match s with
  | EmptyString => [EmptyString]
  | String c s' =>
      if Ascii.eqb c slash then EmptyString :: split s'
      else match split s' with
           | [] => [String c EmptyString]
           | h :: tl => String c h :: tl
           end
  end.

Fixpoint join (l : list string) : string :=
  match l with
  | [] => ""
  | [a] => a
  | a :: l' => a ++ "/" ++ join l'
  end.

Definition keep_segment (x : string) : bool :=
  negb (String.eqb x "") && negb (String.eqb x ".").

Definition of_str (s : string) : t :=
  {| absolute := String.prefix "/" s;
     parts := filter keep_segment (split s) |}.

Definition str (p : t) : string :=
  if absolute p then "/" ++ join (parts p)
  else match parts p with
       | [] => "."
       | _ => join (parts p)
       end.

Definition eqb (p q : t) : bool :=
  Bool.eqb (absolute p) (absolute q) &&
  if list_eq_dec string_dec (parts p) (parts q) then true else false.

(** [p / q] *)
Definition truediv (p q : t) : t :=
  if absolute q then q
  else {| absolute := absolute p; parts := parts p ++ parts q |}.

Fixpoint is_prefix (a b : list string) : bool :=
  match a, b with
  | [], _ => true
  | x :: a', y :: b' => String.eqb x y && is_prefix a' b'
  | _ :: _, [] => false
  end.

(** [p.relative_to(base)]; pathlib raises [ValueError] when [base] is not
    a prefix of [p]. *)
Definition relative_to (p base : t) : result t :=
  if Bool.eqb (absolute p) (absolute base) && is_prefix (parts base) (parts p)
  then Ok {| absolute := false;
             parts := skipn (List.length (parts base)) (parts p) |}
  else Raise (ValueError (str p ++ " is not in the subpath of " ++ str base)).

(** [p.name]: the final segment, empty when there is none. *)
Definition name (p : t) : string := last (parts p) "".

(** Segments as pathlib keeps them. *)
Fixpoint has_slash (s : string) : bool :=
  match s with
  | EmptyString => false
  | String c s' => Ascii.eqb c slash || has_slash s'
  end.

Definition seg_ok (x : string) : bool :=
  keep_segment x && negb (has_slash x).

Definition wf (p : t) : Prop := forallb seg_ok (parts p) = true.

End Path.

Notation "p // q" := (Path.truediv p q) (at level 40, left associativity).

(* ================================================================== *)
(** ** The file system seen by the registry

    The regular files on disk, in directory-scan order, each with the
    SHA-256 digest and the byte length of its content. *)

Module FS.

Record file : Type := mkfile {
  f_path : Path.t;
  f_sha256 : string;
  f_size : Z
}.

Definition t : Type := list file.

Definition lookup (fs : t) (p : Path.t) : option file :=
  find (fun e => Path.eqb (f_path e) p) fs.

(** [glob.iglob(str(src_dir/'**'/name), recursive=True)]: the files below
    [src_dir], at any depth, whose final segment is [name] (a [name]
    without glob metacharacters; hidden directories are not treated
    apart). *)
Definition below (src_dir : Path.t) (name : string) (p : Path.t) : bool :=
  Bool.eqb (Path.absolute p) (Path.absolute src_dir) &&
  Path.is_prefix (Path.parts src_dir) (Path.parts p) &&
  match rev (skipn (List.length (Path.parts src_dir)) (Path.parts p)) with
  | [] => false
  | final :: _ => String.eqb final name
  end.

Definition glob (fs : t) (src_dir : Path.t) (name : string) : list Path.t :=
  map f_path (filter (fun e => below src_dir name (f_path e)) fs).

End FS.

(* ================================================================== *)
(** ** class InputFile *)

Module InputFile.

Record t : Type := mk {
  _src_dir : Path.t;
  _path : Path.t;
  checksum : option string;
  size : option Z
}.

(** The properties [src_dir], [path] and [fullpath]. *)
Definition src_dir (self : t) : Path.t := _src_dir self.
Definition path (self : t) : Path.t := _path self.
Definition fullpath (self : t) : Path.t := src_dir self // _path self.

(** Modelled from the spec: [util.execute] and [util.gettempdir] are not
    part of the sources at hand.  [_sha256sum] runs the external
    [sha256sum] through them and reads the digest back; the spec names
    this capability "compute content checksum of a file".  It is the
    digest the file system holds for the path, and the tool fails on a
    path that is no file. *)
Definition _sha256sum (fs : FS.t) (filepath : Path.t) : result string :=
  match FS.lookup fs filepath with
  | Some e => Ok (FS.f_sha256 e)
  | None => Raise CalledProcessError
  end.

(** [filepath.stat().st_size] *)
Definition _size (fs : FS.t) (filepath : Path.t) : result Z :=
  match FS.lookup fs filepath with
  | Some e => Ok (FS.f_size e)
  | None => Raise FileNotFoundError
  end.

(** [InputFile(path, src_dir=None, compute_metadata=True)], with [path]
    and [src_dir] already turned into paths. *)
Definition __init__ (fs : FS.t) (path : Path.t) (src_dir : option Path.t)
    (compute_metadata : bool) : result t :=
  let src_dir := match src_dir with
                 | None => Path.of_str "/"
                 | Some d => d
                 end in
  rel <- Path.relative_to path src_dir ;;
  if compute_metadata then
    c <- _sha256sum fs (src_dir // rel) ;;
    s <- _size fs (src_dir // rel) ;;
    Ok (mk src_dir rel (Some c) (Some s))
  else
    Ok (mk src_dir rel None None).

(** The record stored for one file in the manifest: the values under the
    keys ['fullpath'], ['sha256sum'] and ['size']; the latter two may be
    missing. *)
Record meta : Type := mkmeta {
  meta_fullpath : string;
  meta_sha256sum : option string;
  meta_size : option Z
}.

Definition checksum_mismatch_msg (path : string) : string :=
  "Checksum for " ++ path ++ " does not match".

(** [InputFile.from_dict(data, src_dir=None, verify_checksum=True)].
    [data.popitem()] mutates the caller's dictionary, so the dictionary
    as the call leaves it is returned with the result. *)
Definition from_dict (fs : FS.t) (data : dict meta) (src_dir : option string)
    (verify_checksum : bool) : dict meta * result t :=
  match popitem data with
  | None => (data, Raise (KeyError popitem_empty_msg))
  | Some ((path, meta), data) =>
      if nonempty data then (data, Raise AssertionError)
      else
        (data,
         obj <- __init__ fs (Path.of_str (meta_fullpath meta))
                  (option_map Path.of_str src_dir) verify_checksum ;;
         if verify_checksum then
           match meta_sha256sum meta with
           | None => Raise (KeyError "sha256sum")
           | Some c =>
               if negb (opt_str_eqb (Some c) (checksum obj))
               then Raise (ValueError (checksum_mismatch_msg path))
               else Ok obj
           end
         else
           Ok (mk (_src_dir obj) (_path obj)
                  (meta_sha256sum meta) (meta_size meta)))
  end.

(** [to_dict(self)] *)
Definition to_dict (self : t) : dict meta :=
  let data :=
    {| meta_fullpath := Path.str (fullpath self);
       meta_sha256sum := if truthy_str (checksum self) then checksum self
                         else None;
       meta_size := if truthy_int (size self) then size self else None |} in
  [(Path.str (path self), data)].

(** What [__hash__] hands to the builtin [hash]:
    [self.checksum or self.fullpath], a string or a path. *)
Inductive hashable : Type :=
| HStr (s : string)
| HPath (p : Path.t).

Definition hash_arg (self : t) : hashable :=
  match checksum self with
  | Some c => if truthy_str (Some c) then HStr c else HPath (fullpath self)
  | None => HPath (fullpath self)
  end.

(** [__hash__], over the builtin [hash] (which Python fixes per process
    only). *)
Definition __hash__ (py_hash : hashable -> Z) (self : t) : Z :=
  py_hash (hash_arg self).

(** [__eq__] between two [InputFile]. *)
Definition __eq__ (self other : t) : bool :=
  if negb (truthy_str (checksum self)) || negb (truthy_str (checksum other))
  then Path.eqb (fullpath self) (fullpath other)
  else opt_str_eqb (checksum self) (checksum other).

(** The values the constructor can build: a relative [path] and
    well-formed segments. *)
Definition wf (f : t) : Prop :=
  Path.wf (_src_dir f) /\ Path.wf (_path f) /\
  Path.absolute (_path f) = false.


End InputFile.

(* ================================================================== *)
(** ** set of InputFile

    A Python [set] keeps one element per class of "same hash and equal".
    The list holds the elements in iteration order. *)

Module PySet.
Section WithHash.
Variable py_hash : InputFile.hashable -> Z.

(** The test a set lookup makes between a stored element and a key. *)
Definition same (stored key : InputFile.t) : bool :=
  Z.eqb (InputFile.__hash__ py_hash stored) (InputFile.__hash__ py_hash key)
  && InputFile.__eq__ stored key.

Definition add (x : InputFile.t) (s : list InputFile.t) : list InputFile.t :=
  if existsb (fun y => same y x) s then s else s ++ [x].

(** [{x for x in l}] *)
Definition of_list (l : list InputFile.t) : list InputFile.t :=
  fold_left (fun s x => add x s) l [].

(** A list that is the content of a set: no two stored elements pass the
    lookup test. *)
Definition wf (s : list InputFile.t) : Prop :=
  forall x y, In x s -> In y s -> same x y = true -> x = y.

End WithHash.
End PySet.

(* ================================================================== *)
(** ** class ExperimentFiles *)

Module ExperimentFiles.

Record t : Type := mk {
  exp_id : string;
  src_dir : list Path.t;
  _files : list InputFile.t
}.

(** The manifest: experiment id, then source directory, then relative
    path, then the record of the file. *)
Definition manifest : Type := dict (dict (dict InputFile.meta)).

(** Modelled from the spec: [util.as_tuple] is not part of the sources at
    hand.  The spec keeps the source roots as an ordered list; a list of
    roots is taken over as it is. *)
Definition as_tuple {A} (l : list A) : list A := l.

(** [ExperimentFiles(exp_id, src_dir)] with [src_dir] a list of strings. *)
Definition __init__ (exp_id : string) (src_dir : list string) : t :=
  mk exp_id (map Path.of_str (as_tuple src_dir)) [].

Definition not_found_msg (name : string) : string :=
  "Input file " ++ name ++ " not found in source directories".

Definition ifsdata_marker : string := "/ifsdata/".

Definition in_ifsdata (f : InputFile.t) : bool :=
  contains ifsdata_marker (Path.str (InputFile.fullpath f)).

Section WithHash.
Variable py_hash : InputFile.hashable -> Z.
Variable fs : FS.t.

(** The set comprehension of [from_dict]: each record is decoded through
    a fresh one-entry dictionary and added to the set; the first
    exception ends it. *)
Fixpoint decode_files (verify_checksum : bool)
    (entries : list (string * (string * InputFile.meta)))
    (acc : list InputFile.t) : result (list InputFile.t) :=
  match entries with
  | [] => Ok acc
  | (src_dir, (p, f)) :: rest =>
      obj <- snd (InputFile.from_dict fs [(p, f)] (Some src_dir)
                    verify_checksum) ;;
      decode_files verify_checksum rest (PySet.add py_hash obj acc)
  end.

(** [for src_dir, files in src_dir_files.items() for p, f in files.items()] *)
Definition entries (src_dir_files : dict (dict InputFile.meta))
    : list (string * (string * InputFile.meta)) :=
  flat_map (fun sf => map (fun pf => (fst sf, pf)) (snd sf)) src_dir_files.

(** [ExperimentFiles.from_dict(data, verify_checksum=True)]; the
    dictionary as the call leaves it comes with the result. *)
Definition from_dict (data : manifest) (verify_checksum : bool)
    : manifest * result t :=
  match popitem data with
  | None => (data, Raise (KeyError popitem_empty_msg))
  | Some ((exp_id, src_dir_files), data) =>
      if nonempty data then (data, Raise AssertionError)
      else
        (data,
         let src_dir := keys src_dir_files in
         let obj := __init__ exp_id src_dir in
         files <- decode_files verify_checksum (entries src_dir_files) [] ;;
         Ok (mk (ExperimentFiles.exp_id obj) (ExperimentFiles.src_dir obj)
                files))
  end.

(** The property [files]: a copy of the set. *)
Definition files (self : t) : list InputFile.t := _files self.

(** [to_dict(self)]: [data] is a [defaultdict(dict)]. *)
Definition to_dict (self : t) : manifest :=
  let data :=
    fold_left
      (fun data f =>
         let key := Path.str (InputFile.src_dir f) in
         let inner := match get key data with
                      | Some d => d
                      | None => []
                      end in
         setitem key (update inner (InputFile.to_dict f)) data)
      (files self) [] in
  [(exp_id self, data)].

(** The loop of [_input_file_in_src_dir] over the candidates. *)
Fixpoint first_match (input_file : InputFile.t)
    (candidates : list (Path.t * Path.t)) : result (option InputFile.t) :=
  match candidates with
  | [] => Ok None
  | (path, src_dir) :: rest =>
      candidate_file <- InputFile.__init__ fs path (Some src_dir) true ;;
      if opt_str_eqb (InputFile.checksum candidate_file)
                     (InputFile.checksum input_file)
      then Ok (Some candidate_file)
      else first_match input_file rest
  end.

Definition candidates (self : t) (input_file : InputFile.t)
    : list (Path.t * Path.t) :=
  flat_map
    (fun src_dir =>
       map (fun path => (path, src_dir))
           (FS.glob fs src_dir (Path.name (InputFile.path input_file))))
    (src_dir self).

(** [_input_file_in_src_dir(self, input_file, verify_checksum=False)];
    the warning that is logged when nothing is found and nothing has to
    be verified is not kept. *)
Definition _input_file_in_src_dir (self : t) (input_file : InputFile.t)
    (verify_checksum : bool) : result InputFile.t :=
  if negb (nonempty (src_dir self)) then Ok input_file
  else
    found <- first_match input_file (candidates self input_file) ;;
    match found with
    | Some candidate_file => Ok candidate_file
    | None =>
        if verify_checksum
        then Raise (ValueError
                      (not_found_msg (Path.name (InputFile.path input_file))))
        else Ok input_file
    end.

(** [add_file(self, *filepath, compute_metadata=True)] *)
Fixpoint add_file (self : t) (filepath : list string)
    (compute_metadata : bool) : t * result unit :=
  match filepath with
  | [] => (self, Ok tt)
  | path :: rest =>
      match
        (input_file <- InputFile.__init__ fs (Path.of_str path) None
                         compute_metadata ;;
         _input_file_in_src_dir self input_file compute_metadata)
      with
      | Raise e => (self, Raise e)
      | Ok input_file =>
          add_file
            (mk (exp_id self) (src_dir self)
                (PySet.add py_hash input_file (_files self)))
            rest compute_metadata
      end
  end.

(** [add_input_file(self, *input_file, verify_checksum=True)] *)
Fixpoint add_input_file (self : t) (input_file : list InputFile.t)
    (verify_checksum : bool) : t * result unit :=
  match input_file with
  | [] => (self, Ok tt)
  | f :: rest =>
      match _input_file_in_src_dir self f verify_checksum with
      | Raise e => (self, Raise e)
      | Ok new_file =>
          add_input_file
            (mk (exp_id self) (src_dir self)
                (PySet.add py_hash new_file (_files self)))
            rest verify_checksum
      end
  end.

(** The properties [exp_files] and [ifsdata_files]. *)
Definition exp_files (self : t) : list InputFile.t :=
  PySet.of_list py_hash (filter (fun f => negb (in_ifsdata f)) (_files self)).

Definition ifsdata_files (self : t) : list InputFile.t :=
  PySet.of_list py_hash (filter in_ifsdata (_files self)).

(** The [while old_files:] loop of [update_srcdir]; [pop] takes the
    element the set yields first. *)
Fixpoint rebase_all (self : t) (old_files new_files : list InputFile.t)
    : result (list InputFile.t) :=
  match old_files with
  | [] => Ok new_files
  | f :: old_files =>
      new_file <- _input_file_in_src_dir self f true ;;
      rebase_all self old_files (PySet.add py_hash new_file new_files)
  end.

(** [update_srcdir(self, src_dir, update_files=True, with_ifsdata=False)] *)
Definition update_srcdir (self : t) (new_src_dir : list Path.t)
    (update_files with_ifsdata : bool) : t * result unit :=
  let self := mk (exp_id self) (as_tuple new_src_dir) (_files self) in
  if update_files then
    let '(old_files, new_files) :=
      if with_ifsdata then (files self, [])
      else (exp_files self, ifsdata_files self) in
    match rebase_all self old_files new_files with
    | Raise e => (self, Raise e)
    | Ok new_files => (mk (exp_id self) (src_dir self) new_files, Ok tt)
    end
  else (self, Ok tt).

End WithHash.
End ExperimentFiles.

(* ================================================================== *)
(** ** Candidates of the rebase *)

Module Rebase.

(** The digest a candidate path gets when [InputFile] is built for it. *)
Definition candidate_sum (fs : FS.t) (p : Path.t) : option string :=
  option_map FS.f_sha256 (FS.lookup fs p).

(** The candidate has the checksum of [f]. *)
Definition matches (fs : FS.t) (f : InputFile.t) (c : Path.t * Path.t)
    : bool :=
  opt_str_eqb (candidate_sum fs (fst c)) (InputFile.checksum f).

(** Some file below [root] has the name of [f] and its checksum. *)
Definition root_matches (fs : FS.t) (f : InputFile.t) (root : Path.t)
    : bool :=
  existsb (fun p => matches fs f (p, root))
          (FS.glob fs root (Path.name (InputFile.path f))).

(** Some configured root has such a file. *)
Definition has_match (fs : FS.t) (roots : list Path.t) (f : InputFile.t)
    : bool :=
  existsb (root_matches fs f) roots.

(** The relative path of a candidate [p] found below [root]. *)
Definition rel_path (root p : Path.t) : Path.t :=
  Path.mk false (skipn (List.length (Path.parts root)) (Path.parts p)).

(** The candidate file built for a pair of the candidate list. *)
Definition built (fs : FS.t) (c : Path.t * Path.t) : option InputFile.t :=
  match InputFile.__init__ fs (fst c) (Some (snd c)) true with
  | Ok f => Some f
  | Raise _ => None
  end.

(** The pair is a path that the glob below its root returns. *)
Definition from_glob (fs : FS.t) (name : string) (c : Path.t * Path.t)
    : Prop :=
  In (fst c) (FS.glob fs (snd c) name).


End Rebase.

(* ================================================================== *)
(** ** The manifest as [to_dict] builds it *)

Module Manifest.



(** The record [InputFile.to_dict] emits for a file. *)
Definition meta_of (f : InputFile.t) : InputFile.meta :=
  {| InputFile.meta_fullpath := Path.str (InputFile.fullpath f);
     InputFile.meta_sha256sum :=
       if truthy_str (InputFile.checksum f) then InputFile.checksum f
       else None;
     InputFile.meta_size :=
       if truthy_int (InputFile.size f) then InputFile.size f else None |}.

(** The place of a file in the manifest, with its record. *)
Definition entry_of (f : InputFile.t)
    : string * (string * InputFile.meta) :=
  (Path.str (InputFile.src_dir f), (Path.str (InputFile.path f), meta_of f)).

(** [data[sd][p] = m] on the [defaultdict]. *)
Definition set2 (sd p : string) (m : InputFile.meta)
    (data : dict (dict InputFile.meta)) : dict (dict InputFile.meta) :=
  setitem sd (setitem p m (match get sd data with
                           | Some d => d
                           | None => []
                           end)) data.

(** One round of the loop of [ExperimentFiles.to_dict]. *)
Definition step (data : dict (dict InputFile.meta)) (f : InputFile.t) :=
  set2 (fst (entry_of f)) (fst (snd (entry_of f))) (meta_of f) data.

(** [data[sd][p]], if there. *)
Definition lookup2 (sd p : string) (data : dict (dict InputFile.meta))
    : option InputFile.meta :=
  match get sd data with
  | Some inner => get p inner
  | None => None
  end.

(** Keys are unique at both levels. *)
Definition nodup2 (data : dict (dict InputFile.meta)) : Prop :=
  NoDup (keys data)
  /\ forall sd inner, In (sd, inner) data -> NoDup (keys inner).




End Manifest.

(* ================================================================== *)
(** ** re: the fragment of regular expressions the rules are built from

    Patterns are kept as syntax trees instead of pattern text.  Matching
    is by backtracking in the priority order of Python's [re]: a lazy
    star tries the shorter repetition first, an optional group is tried
    before it is skipped.  The continuation [k] stands for the rest of
    the pattern; groups record the text they matched. *)

Module Re.

Inductive charclass : Type :=
| Dot        (* .      : any character but a newline *)
| NotSlash.  (* [^\/]  : any character but a slash   *)

Inductive regex : Type :=
| Eps
| Lit (s : string)
| LazyStar (c : charclass)       (* c*?        *)
| Opt (r : regex)                (* (r)?       *)
| Grp (name : string) (r : regex)  (* (?P<name>r) *)
| Cat (r1 r2 : regex)
| Bol                            (* ^ *)
| Eol.                           (* $ *)

Definition newline : ascii := "010"%char.

Definition in_class (c : charclass) (a : ascii) : bool :=
  match c with
  | Dot => negb (Ascii.eqb a newline)
  | NotSlash => negb (Ascii.eqb a Path.slash)
  end.

Definition groups : Type := list (string * string).

Definition set_group (name text : string) (g : groups) : groups :=
  (name, text) :: g.

(** The text of a group; a group that took no part in the match expands
    to the empty string. *)
Fixpoint group (name : string) (g : groups) : string :=
  match g with
  | [] => ""
  | (n, text) :: g' => if String.eqb name n then text else group name g'
  end.

Fixpoint strip_prefix (l s : string) : option string :=
  match l, s with
  | EmptyString, _ => Some s
  | String a l', String b s' =>
      if Ascii.eqb a b then strip_prefix l' s' else None
  | String _ _, EmptyString => None
  end.

(** [$] without [MULTILINE]: at the end, or before a final newline. *)
Definition at_end (s : string) : bool :=
  match s with
  | EmptyString => true
  | String a EmptyString => Ascii.eqb a newline
  | _ => false
  end.

Section Match.
Variable R : Type.

Fixpoint lazy_star (c : charclass) (pos : nat) (s : string)
    (k : nat -> string -> option R) : option R :=
  match k pos s with
  | Some r => Some r
  | None =>
      match s with
      | EmptyString => None
      | String a s' =>
          if in_class c a then lazy_star c (S pos) s' k else None
      end
  end.

(** [rmatch r pos s g k]: match [r] at offset [pos], where [s] is the
    text from [pos] on. *)
Fixpoint rmatch (r : regex) (pos : nat) (s : string) (g : groups)
    (k : nat -> string -> groups -> option R) : option R :=
  match r with
  | Eps => k pos s g
  | Lit l =>
      match strip_prefix l s with
      | Some s' => k (pos + String.length l) s' g
      | None => None
      end
  | LazyStar c => lazy_star c pos s (fun pos' s' => k pos' s' g)
  | Opt r' =>
      match rmatch r' pos s g k with
      | Some x => Some x
      | None => k pos s g
      end
  | Grp name r' =>
      rmatch r' pos s g
        (fun pos' s' g' =>
           k pos' s' (set_group name (substring 0 (pos' - pos) s) g'))
  | Cat r1 r2 =>
      rmatch r1 pos s g (fun pos' s' g' => rmatch r2 pos' s' g' k)
  | Bol => if Nat.eqb pos 0 then k pos s g else None
  | Eol => if at_end s then k pos s g else None
  end.

End Match.

(** A match that starts at offset [pos]: its groups, its end and the text
    after it.  [must_advance] refuses an empty match (the rule of [sub]
    right after an empty match). *)
Definition match_at (r : regex) (pos : nat) (s : string)
    (must_advance : bool) : option (groups * nat * string) :=
  rmatch _ r pos s []
    (fun pos' s' g =>
       if must_advance && Nat.eqb pos' pos then None
       else Some (g, pos', s')).

(** The leftmost match from offset [pos] on, with the text skipped
    before it. *)
Fixpoint search (r : regex) (pos : nat) (s : string) (must_advance : bool)
    : option (string * (groups * nat * string)) :=
  match match_at r pos s must_advance with
  | Some m => Some ("", m)
  | None =>
      match s with
      | EmptyString => None
      | String a s' =>
          match search r (S pos) s' false with
          | Some (skipped, m) => Some (String a skipped, m)
          | None => None
          end
      end
  end.

(** A replacement template: text and [\g<name>] references. *)
Inductive item : Type :=
| Text (s : string)
| Ref (name : string).

Definition template : Type := list item.

Fixpoint expand (t : template) (g : groups) : string :=
  match t with
  | [] => ""
  | Text s :: t' => s ++ expand t' g
  | Ref name :: t' => group name g ++ expand t' g
  end.

(** [pattern.sub(repl, s)]: every non-overlapping match, left to right,
    is replaced by the expanded template.  Two rounds consume at least
    one character, which bounds the loop. *)
Fixpoint sub_from (fuel : nat) (r : regex) (repl : template) (pos : nat)
    (s : string) (must_advance : bool) : string :=
  match fuel with
  | O => s
  | S fuel' =>
      match search r pos s must_advance with
      | None => s
      | Some (skipped, (g, pos', s')) =>
          let start := pos + String.length skipped in
          skipped ++ expand repl g ++
          sub_from fuel' r repl pos' s' (Nat.eqb pos' start)
      end
  end.

Definition sub (r : regex) (repl : template) (s : string) : string :=
  sub_from (2 * String.length s + 2) r repl 0 s false.

End Re.

(* ================================================================== *)
(** ** class SpecialRelativePath *)

Module SpecialRelativePath.

Record t : Type := mk { pattern : Re.regex; repl : Re.template }.

Inductive NameMatch : Type :=
| EXACT
| LEFT_ALIGNED
| RIGHT_ALIGNED
| FREE.

Definition with_pre (m : NameMatch) : bool :=
  match m with
  | RIGHT_ALIGNED | FREE => true
  | _ => false
  end.

Definition with_post (m : NameMatch) : bool :=
  match m with
  | LEFT_ALIGNED | FREE => true
  | _ => false
  end.

(** Concatenation of the pieces a pattern is assembled from. *)
Definition seq (l : list Re.regex) : Re.regex := fold_right Re.Cat Re.Eps l.

(** [^(?P<parent>.*?\/)?(?P<name>] *)
Definition parent_group : Re.regex :=
  Re.Opt (Re.Grp "parent" (Re.Cat (Re.LazyStar Re.Dot) (Re.Lit "/"))).

(** The content of the group [name]: [(?P<pre>[^\/]*?)] when the mode
    has it, [(?P<match>filename)], [(?P<post>[^\/]*?)] when the mode has
    it. *)
Definition name_group (filename : Re.regex) (m : NameMatch) : Re.regex :=
  Re.Grp "name"
    (seq ((if with_pre m then [Re.Grp "pre" (Re.LazyStar Re.NotSlash)]
           else [])
          ++ [Re.Grp "match" filename]
          ++ (if with_post m then [Re.Grp "post" (Re.LazyStar Re.NotSlash)]
              else []))).

(** [from_filename(filename, repl, match=NameMatch.FREE)]; the pattern
    ends in [)$]. *)
Definition from_filename (filename : Re.regex) (repl : Re.template)
    (m : NameMatch) : t :=
  mk (seq [Re.Bol; parent_group; name_group filename m; Re.Eol]) repl.

(** [from_dirname(dirname, repl, match=NameMatch.FREE)]; the pattern
    ends in [)(?P<child>\/.*?)$]. *)
Definition from_dirname (dirname : Re.regex) (repl : Re.template)
    (m : NameMatch) : t :=
  mk (seq [Re.Bol; parent_group; name_group dirname m;
           Re.Grp "child" (Re.Cat (Re.Lit "/") (Re.LazyStar Re.Dot));
           Re.Eol]) repl.

(** [__call__(self, path)] *)
Definition __call__ (self : t) (path : string) : string :=
  Re.sub (pattern self) (repl self) path.


End SpecialRelativePath.

(* ================================================================== *)
(** ** class ExperimentFilesBenchmark: the destination of a file *)

Module ExperimentFilesBenchmark.




End ExperimentFilesBenchmark.

(* ================================================================== *)
(** ** Concrete files, directories and rules used in examples *)

Module Scenario.

(** A stand-in for the builtin [hash]: strings and paths hash apart. *)
Definition toy_hash (h : InputFile.hashable) : Z :=
  match h with
  | InputFile.HStr s => Z.of_nat (String.length s)
  | InputFile.HPath p => (- 1 - Z.of_nat (List.length (Path.parts p)))%Z
  end.

Definition root_a : Path.t := Path.mk true ["data"; "A"].
Definition root_b : Path.t := Path.mk true ["data"; "B"].
Definition root_new : Path.t := Path.mk true ["scratch"].

(** Two copies of [data.grib], one below each root, and some more. *)
Definition disk : FS.t :=
  [ FS.mkfile (Path.mk true ["data"; "B"; "data.grib"]) "c0ffee" 42;
    FS.mkfile (Path.mk true ["data"; "A"; "run"; "data.grib"]) "c0ffee" 42;
    FS.mkfile (Path.mk true ["data"; "A"; "empty.dat"]) "e3b0c442" 0;
    FS.mkfile (Path.mk true ["data"; "B"; "ifsdata"; "clim.grib"]) "beef" 7;
    FS.mkfile (Path.mk true ["data"; "B"; "notes.txt"]) "f00d" 3;
    FS.mkfile (Path.mk true ["scratch"; "in"; "data.grib"]) "c0ffee" 42 ].

Definition grib_a : InputFile.t :=
  InputFile.mk root_a (Path.mk false ["run"; "data.grib"])
    (Some "c0ffee") (Some 42%Z).

Definition grib_b : InputFile.t :=
  InputFile.mk root_b (Path.mk false ["data.grib"]) (Some "c0ffee") (Some 42%Z).

(** The same path as [grib_b], metadata not computed. *)
Definition grib_b_pending : InputFile.t :=
  InputFile.mk root_b (Path.mk false ["data.grib"]) None None.

(** An empty file: size [0]. *)
Definition empty_file : InputFile.t :=
  InputFile.mk root_a (Path.mk false ["empty.dat"]) (Some "e3b0c442")
    (Some 0%Z).

Definition clim : InputFile.t :=
  InputFile.mk root_b (Path.mk false ["ifsdata"; "clim.grib"])
    (Some "beef") (Some 7%Z).

(** [/data/B/data.grib] as [add_file] first builds it, below [/]. *)
Definition grib_b_unrooted : InputFile.t :=
  InputFile.mk (Path.mk true []) (Path.mk false ["data"; "B"; "data.grib"])
    (Some "c0ffee") (Some 42%Z).

Definition notes : InputFile.t :=
  InputFile.mk root_b (Path.mk false ["notes.txt"]) (Some "f00d") (Some 3%Z).

(** [data.grib] as found below [/scratch]. *)
Definition grib_new : InputFile.t :=
  InputFile.mk root_new (Path.mk false ["in"; "data.grib"])
    (Some "c0ffee") (Some 42%Z).

(** An empty registry that searches [/data/A] before [/data/B]. *)
Definition reg_ab : ExperimentFiles.t :=
  ExperimentFiles.mk "exp" [root_a; root_b] [].

(** A registry of [/data/B] with an ifsdata file. *)
Definition reg_b : ExperimentFiles.t :=
  ExperimentFiles.mk "exp" [root_b] [grib_b; clim].

(** The same with a file that exists nowhere else. *)
Definition reg_b_notes : ExperimentFiles.t :=
  ExperimentFiles.mk "exp" [root_b] [grib_b; clim; notes].






End Scenario.

(* ================================================================== *)
(** ** Files and the disk *)

Module Disk.

(** [p] lies at or below [base]: same anchor, and the segments of [base]
    start those of [p]. *)
Definition under (base p : Path.t) : bool :=
  Bool.eqb (Path.absolute p) (Path.absolute base)
  && Path.is_prefix (Path.parts base) (Path.parts p).

(** The file is on disk, with the digest and the size it records. *)
Definition on_disk (fs : FS.t) (f : InputFile.t) : Prop :=
  exists e,
    FS.lookup fs (InputFile.fullpath f) = Some e
    /\ InputFile.checksum f = Some (FS.f_sha256 e)
    /\ InputFile.size f = Some (FS.f_size e).

(** Some element stored in the set [s] passes the lookup test against
    [g]: adding [g] to [s] changes nothing. *)
Definition covered (py_hash : InputFile.hashable -> Z)
    (s : list InputFile.t) (g : InputFile.t) : Prop :=
  existsb (fun y => PySet.same py_hash y g) s = true.

End Disk.

(* ================================================================== *)
(** ** More concrete values for examples *)

Module Cases.
Import Scenario.

(** The record of [/data/B/data.grib] with a size that is not the
    file's, and one with a checksum that is not the file's. *)
Definition grib_meta_odd_size : InputFile.meta :=
  InputFile.mkmeta "/data/B/data.grib" (Some "c0ffee") (Some 999%Z).


(** Two files at one path with different checksums. *)
Definition grib_b_other_sum : InputFile.t :=
  InputFile.mk root_b (Path.mk false ["data.grib"]) (Some "0dd") (Some 42%Z).


End Cases.

(* ================================================================== *)
(** ** Shapes of text that the rules look at *)

Module Shape.






End Shape.

(* ================================================================== *)
(** ** pathlib: suffixes *)

Module PathSuffix.

Definition dot : ascii := "."%char.

(** [name.rfind('.')]: the offset of the last dot, scanning from offset
    [i] with [last] the one seen so far. *)
Fixpoint rfind_dot (s : string) (i : nat) (last : option nat) : option nat :=
  match s with
  | EmptyString => last
  | String c s' =>
      rfind_dot s' (S i) (if Ascii.eqb c dot then Some i else last)
  end.

(** [p.suffix] on the final segment [name], as pathlib of Python 3.11
    has it: from the last dot on, unless that dot starts or ends the
    name. *)
Definition suffix (name : string) : string :=
  match rfind_dot name 0 None with
  | Some i =>
      if Nat.ltb 0 i && Nat.ltb i (String.length name - 1)
      then substring i (String.length name - i) name
      else ""
  | None => ""
  end.

(** [p.with_suffix(suffix)] *)
Definition with_suffix (p : Path.t) (sfx : string) : result Path.t :=
  if Path.has_slash sfx
  then Raise (ValueError ("Invalid suffix '" ++ sfx ++ "'"))
  else if (negb (String.eqb sfx "") && negb (String.prefix "." sfx))
          || String.eqb sfx "."
  then Raise (ValueError ("Invalid suffix '" ++ sfx ++ "'"))
  else
    let name := Path.name p in
    if String.eqb name ""
    then Raise (ValueError
                  ("PosixPath('" ++ Path.str p ++ "') has an empty name"))
    else
      let old_suffix := suffix name in
      let name :=
        if String.eqb old_suffix "" then (name ++ sfx)%string
        else (substring 0 (String.length name - String.length old_suffix)
                name ++ sfx)%string in
      Ok (Path.mk (Path.absolute p) (removelast (Path.parts p) ++ [name])).

End PathSuffix.

(* ================================================================== *)
(** ** ExperimentFiles: tarballs *)

Module Tarball.

(** A dictionary with paths as keys. *)
Fixpoint pget {V} (k : Path.t) (d : list (Path.t * V)) : option V :=
  match d with
  | [] => None
  | (k', v) :: d' => if Path.eqb k k' then Some v else pget k d'
  end.

Fixpoint psetitem {V} (k : Path.t) (v : V) (d : list (Path.t * V))
    : list (Path.t * V) :=
  match d with
  | [] => [(k, v)]
  | (k', v') :: d' =>
      if Path.eqb k k' then (k, v) :: d' else (k', v') :: psetitem k v d'
  end.

(** Modelled from the spec: [util.execute] is not part of the sources at
    hand; the spec names the capability "create a compressed archive
    from a list of relative paths rooted at a base directory".
    [_create_tarball(files, output_basename, basedir)] hands one [tar]
    command to it, which is what is kept here. *)
Definition _create_tarball (files : list string) (output_basename : Path.t)
    (basedir : option Path.t) : result (list string) :=
  output_file <- PathSuffix.with_suffix output_basename ".tar.gz" ;;
  let cmd := ["tar"; "cvzhf"; Path.str output_file] in
  let cmd := match basedir with
             | Some b => cmd ++ ["-C"; Path.str b]
             | None => cmd
             end in
  Ok (cmd ++ files).

(** One round of the first loop of [to_tarball]:
    [exp_files[f.src_dir] += [str(f.path)]] on a [defaultdict(list)]. *)
Definition gstep (d : list (Path.t * list string)) (f : InputFile.t)
    : list (Path.t * list string) :=
  let key := InputFile.src_dir f in
  let old := match pget key d with
             | Some l => l
             | None => []
             end in
  psetitem key (old ++ [Path.str (InputFile.path f)]) d.

Definition group_by_src_dir (files : list InputFile.t)
    : list (Path.t * list string) :=
  fold_left gstep files [].

(** [src_dir.name or 'other'] *)
Definition name_or_other (src_dir : Path.t) : string :=
  if String.eqb (Path.name src_dir) "" then "other" else Path.name src_dir.

(** The second loop: one tarball per source directory; the commands
    run so far come with the result. *)
Fixpoint create_all (output_dir : Path.t)
    (groups : list (Path.t * list string)) (done : list (list string))
    : list (list string) * result unit :=
  match groups with
  | [] => (done, Ok tt)
  | (src_dir, files) :: rest =>
      let output_basename :=
        output_dir // Path.of_str (name_or_other src_dir) in
      match _create_tarball files output_basename (Some src_dir) with
      | Raise e => (done, Raise e)
      | Ok cmd => create_all output_dir rest (done ++ [cmd])
      end
  end.

(** [to_tarball(self, output_dir, with_ifsdata=False)]: the [tar]
    commands it runs, in order, and its result. *)
Definition to_tarball (py_hash : InputFile.hashable -> Z)
    (self : ExperimentFiles.t) (output_dir : Path.t) (with_ifsdata : bool)
    : list (list string) * result unit :=
  let exp_files :=
    group_by_src_dir (ExperimentFiles.exp_files py_hash self) in
  match create_all output_dir exp_files [] with
  | (done, Raise e) => (done, Raise e)
  | (done, Ok _) =>
      if with_ifsdata then
        let ifsdata_files := ExperimentFiles.ifsdata_files py_hash self in
        match ifsdata_files with
        | [] => (done, Ok tt)
        | first :: _ =>
            let basedir := InputFile.src_dir first in
            let files :=
              map (fun f => Path.str (InputFile.path f)) ifsdata_files in
            let output_basename := output_dir // Path.of_str "ifsdata" in
            match _create_tarball files output_basename (Some basedir) with
            | Raise e => (done, Raise e)
            | Ok cmd => (done ++ [cmd], Ok tt)
            end
        end
      else (done, Ok tt)
  end.

(** The name [from_tarball] looks for, for the files of one source
    directory: ['{}.tar.gz'.format(f.src_dir.name)]. *)
Definition tarball_name (src_dir : Path.t) : string :=
  (Path.name src_dir ++ ".tar.gz")%string.

Definition archive_missing_msg (tarball_name : string) : string :=
  ("Archive " ++ tarball_name ++ " not found in input directories")%string.

(** [tarballs.add(s)] on a set of strings. *)
Definition add_str (s : string) (l : list string) : list string :=
  if existsb (String.eqb s) l then l else l ++ [s].

(** [candidates = flatten(list(glob(d, tarball_name)) for d in input_dir)]
    for the file [f]. *)
Definition tarball_candidates (fs : FS.t) (input_dir : list Path.t)
    (f : InputFile.t) : list string :=
  flat_map (fun src_dir =>
              map Path.str
                  (FS.glob fs src_dir (tarball_name (InputFile.src_dir f))))
           input_dir.

(** The search of [from_tarball] for the tarballs of the experiment
    files, below the (resolved) input directories: the first candidate
    for each file is taken into the set [tarballs]; no candidate is a
    [ValueError]. *)
Fixpoint find_tarballs (fs : FS.t) (input_dir : list Path.t)
    (exp_files : list InputFile.t) (tarballs : list string)
    : result (list string) :=
  match exp_files with
  | [] => Ok tarballs
  | f :: rest =>
      match tarball_candidates fs input_dir f with
      | [] => Raise (ValueError
                       (archive_missing_msg
                          (tarball_name (InputFile.src_dir f))))
      | first :: _ => find_tarballs fs input_dir rest (add_str first tarballs)
      end
  end.

(** The name of the tarball written for a source directory: the name
    of the directory, or [other], with its suffix replaced. *)
Definition archive_name (src_dir : Path.t) : string :=
  let n := name_or_other src_dir in
  ((if String.eqb (PathSuffix.suffix n) "" then n
    else substring 0 (String.length n - String.length (PathSuffix.suffix n))
           n) ++ ".tar.gz")%string.

Definition archive_file (output_dir src_dir : Path.t) : Path.t :=
  Path.mk (Path.absolute output_dir)
          (Path.parts output_dir ++ [archive_name src_dir]).

(** The command for one source directory and its relative paths. *)
Definition render (output_dir : Path.t) (g : Path.t * list string)
    : list string :=
  ["tar"; "cvzhf"; Path.str (archive_file output_dir (fst g));
   "-C"; Path.str (fst g)] ++ snd g.

(** The relative paths of the files of [files] registered below
    [src_dir], in their order. *)
Definition paths_below (src_dir : Path.t) (files : list InputFile.t)
    : list string :=
  map (fun f => Path.str (InputFile.path f))
      (filter (fun f => Path.eqb (InputFile.src_dir f) src_dir) files).

End Tarball.

(* ================================================================== *)
(** ** launch/job.py *)

From Stdlib Require Import DecimalString.

Module Job.

Inductive CpuBinding : Type :=
| BIND_NONE
| BIND_SOCKETS
| BIND_CORES
| BIND_THREADS
| BIND_USER.

Inductive CpuDistribution : Type :=
| DISTRIBUTE_DEFAULT
| DISTRIBUTE_BLOCK
| DISTRIBUTE_CYCLIC
| DISTRIBUTE_USER.

(** The values a job and an environment override hold, as far as they
    are modelled: [None], integers, strings and the members of the two
    enumerations. *)
Inductive value : Type :=
| VNone
| VInt (z : Z)
| VStr (s : string)
| VBind (b : CpuBinding)
| VDist (d : CpuDistribution).

(** The exceptions of the launch code.  [KeyError] carries the key,
    [AttributeError] the class of the object and the name looked up,
    [ValueError] the message; [TypeError] is a call of a value. *)
Inductive exn : Type :=
| KeyError (key : value)
| AttributeError (cls name : string)
| TypeError
| ValueError (msg : string).

Inductive outcome (A : Type) : Type :=
| Done (a : A)
| Fail (e : exn).
Arguments Done {A} a.
Arguments Fail {A} e.

Definition and_then {A B : Type} (m : outcome A) (k : A -> outcome B)
    : outcome B :=
  match m with
  | Done a => k a
  | Fail e => Fail e
  end.

Definition is_none (v : value) : bool :=
  match v with
  | VNone => true
  | _ => false
  end.

(** [bool(v)]: the members of an enumeration are all true. *)
Definition truthy (v : value) : bool :=
  match v with
  | VNone => false
  | VInt z => negb (Z.eqb z 0)
  | VStr s => negb (String.eqb s "")
  | VBind _ => true
  | VDist _ => true
  end.

Definition str_int (z : Z) : string := NilZero.string_of_int (Z.to_int z).

(** [str(v)], which is also what [format] puts for [{}]. *)
Definition str (v : value) : string :=
  match v with
  | VNone => "None"
  | VInt z => str_int z
  | VStr s => s
  | VBind BIND_NONE => "CpuBinding.BIND_NONE"
  | VBind BIND_SOCKETS => "CpuBinding.BIND_SOCKETS"
  | VBind BIND_CORES => "CpuBinding.BIND_CORES"
  | VBind BIND_THREADS => "CpuBinding.BIND_THREADS"
  | VBind BIND_USER => "CpuBinding.BIND_USER"
  | VDist DISTRIBUTE_DEFAULT => "CpuDistribution.DISTRIBUTE_DEFAULT"
  | VDist DISTRIBUTE_BLOCK => "CpuDistribution.DISTRIBUTE_BLOCK"
  | VDist DISTRIBUTE_CYCLIC => "CpuDistribution.DISTRIBUTE_CYCLIC"
  | VDist DISTRIBUTE_USER => "CpuDistribution.DISTRIBUTE_USER"
  end.

(** A [Job] is a [UserDict]: its entries are in [data].  [attrs] holds
    the other attributes of the instance, which only an assignment
    [job.name = v] creates; the names looked up by the code modelled
    here are no attributes of the class. *)
Record t : Type := mk { data : Py.dict value; attrs : Py.dict value }.

(** [job.get(key, default)] *)
Definition get (job : t) (key : string) (default : value) : value :=
  match Py.get key (data job) with
  | Some v => v
  | None => default
  end.

(** [hasattr(job, name)] *)
Definition hasattr (job : t) (name : string) : bool :=
  match Py.get name (attrs job) with
  | Some _ => true
  | None => false
  end.

(** [job.name] *)
Definition getattr (job : t) (name : string) : outcome value :=
  match Py.get name (attrs job) with
  | Some v => Done v
  | None => Fail (AttributeError "Job" name)
  end.

(** [Job(job, **kwargs)]: [UserDict.__init__] starts from an empty
    dictionary, updates it with [job] if that is given and then with
    [kwargs]; an empty [job] is false. *)
Definition __init__ (job : option t) (kwargs : Py.dict value) : t :=
  match job with
  | Some j =>
      if Py.nonempty (data j)
      then mk (Py.update (Py.update [] (data j)) kwargs) []
      else mk (Py.update [] kwargs) []
  | None => mk (Py.update [] kwargs) []
  end.

End Job.

Notation "x <~ m ;; k" := (Job.and_then m (fun x => k))
  (at level 61, m at next level, right associativity).

(* ================================================================== *)
(** ** launch/launcher.py *)

Module Launcher.
Import Job.

(** [option.format(value)] for a format string with one pair of
    braces, as the option maps have them. *)
Fixpoint format (option : string) (value : value) : string :=
  match option with
  | String "{" (String "}" rest) => (str value ++ rest)%string
  | String c rest => String c (format rest value)
  | EmptyString => ""
  end.

(** [get_options_from_job(self, job)] with [self.job_options_map]. *)
Definition get_options_from_job (job_options_map : Py.dict string)
    (job : Job.t) : list string :=
  flat_map
    (fun kv =>
       match Job.get job (fst kv) VNone with
       | VNone => []
       | value => [format (snd kv) value]
       end)
    job_options_map.

End Launcher.

Module SrunLauncher.
Import Job.

Definition job_options_map : Py.dict string :=
  [("nodes", "--nodes={}");
   ("tasks", "--ntasks={}");
   ("tasks_per_node", "--ntasks-per-node={}");
   ("tasks_per_socket", "--ntasks-per-socket={}");
   ("cpus_per_task", "--cpus-per-task={}");
   ("threads_per_core", "--ntasks-per-core={}");
   ("gpus_per_task", "--gpus-per-task={}");
   ("account", "--acount={}");
   ("partition", "--partition={}")].

Definition bind_options_map (b : CpuBinding) : list string :=
  match b with
  | BIND_NONE => ["--cpu-bind=none"]
  | BIND_SOCKETS => ["--cpu-bind=sockets"]
  | BIND_CORES => ["--cpu-bind=cores"]
  | BIND_THREADS => ["--cpu-bind=threads"]
  | BIND_USER => []
  end.

(** [DISTRIBUTE_USER] is no key of the map. *)
Definition distribution_options_map (d : CpuDistribution) : option string :=
  match d with
  | DISTRIBUTE_DEFAULT => Some "*"
  | DISTRIBUTE_BLOCK => Some "block"
  | DISTRIBUTE_CYCLIC => Some "cyclic"
  | DISTRIBUTE_USER => None
  end.

(** [self.bind_options_map[v]] *)
Definition lookup_bind (v : value) : outcome (list string) :=
  match v with
  | VBind b => Done (bind_options_map b)
  | _ => Fail (KeyError v)
  end.

(** [self.distribution_options_map[v]] *)
Definition lookup_distribution (v : value) : outcome string :=
  match v with
  | VDist d =>
      match distribution_options_map d with
      | Some s => Done s
      | None => Fail (KeyError v)
      end
  | _ => Fail (KeyError v)
  end.

(** [v is CpuDistribution.DISTRIBUTE_USER] *)
Definition is_user (v : value) : bool :=
  match v with
  | VDist DISTRIBUTE_USER => true
  | _ => false
  end.

Definition get_distribution_options (job : Job.t) : outcome (list string) :=
  if is_none (Job.get job "distribute_remote" VNone)
     && is_none (Job.get job "distribute_local" VNone)
  then Done []
  else
    let distribute_remote :=
      Job.get job "distribute_remote" (VDist DISTRIBUTE_DEFAULT) in
    let distribute_local :=
      Job.get job "distribute_local" (VDist DISTRIBUTE_DEFAULT) in
    if is_user distribute_remote then Done []
    else if is_user distribute_local then Done []
    else
      r <~ lookup_distribution distribute_remote ;;
      l <~ lookup_distribution distribute_local ;;
      Done [("--distribution=" ++ r ++ ":" ++ l)%string].

(** [get_command(self, run_dir, cmd, job, env, custom_flags)]; [run_dir]
    and [env] are not used. *)
Definition get_command (cmd : list string) (job : Job.t)
    (custom_flags : option (list string)) : outcome (list string) :=
  let launch_cmd := "srun" :: Launcher.get_options_from_job job_options_map job in
  launch_cmd <~
    (if truthy (Job.get job "bind" VNone)
     then b <~ lookup_bind (Job.get job "bind" VNone) ;;
          Done (launch_cmd ++ b)
     else Done launch_cmd) ;;
  d <~ get_distribution_options job ;;
  let launch_cmd := launch_cmd ++ d in
  let launch_cmd := match custom_flags with
                    | Some f => launch_cmd ++ f
                    | None => launch_cmd
                    end in
  Done (launch_cmd ++ "--" :: cmd).

End SrunLauncher.

Module MpirunLauncher.
Import Job.

Definition job_options_map : Py.dict string :=
  [("tasks", "-np {}");
   ("tasks_per_node", "-npernode {}");
   ("tasks_per_socket", "-npersocket {}");
   ("cpus_per_task", "-cpus-per-proc {}")].

Definition bind_options_map (b : CpuBinding) : list string :=
  match b with
  | BIND_NONE => ["--bind-to none"]
  | BIND_SOCKETS => ["--bind-to socket"]
  | BIND_CORES => ["--bind-to core"]
  | BIND_THREADS => ["--bind-to hwthread"]
  | BIND_USER => []
  end.

Definition distribution_options_map (d : CpuDistribution) : option string :=
  match d with
  | DISTRIBUTE_BLOCK => Some "core"
  | DISTRIBUTE_CYCLIC => Some "numa"
  | _ => None
  end.

Definition lookup_bind (v : value) : outcome (list string) :=
  match v with
  | VBind b => Done (bind_options_map b)
  | _ => Fail (KeyError v)
  end.

Definition lookup_distribution (v : value) : outcome string :=
  match v with
  | VDist d =>
      match distribution_options_map d with
      | Some s => Done s
      | None => Fail (KeyError v)
      end
  | _ => Fail (KeyError v)
  end.

(** [v in do_nothing] *)
Definition in_do_nothing (v : value) : bool :=
  match v with
  | VDist DISTRIBUTE_DEFAULT => true
  | VDist DISTRIBUTE_USER => true
  | _ => false
  end.

(** The first test only gives a warning. *)
Definition get_distribution_options (job : Job.t) : outcome (list string) :=
  if negb (Job.hasattr job "distribute_local") then Done []
  else
    distribute_local <~ Job.getattr job "distribute_local" ;;
    if in_do_nothing distribute_local then Done []
    else
      o <~ lookup_distribution distribute_local ;;
      Done [("--map-by " ++ o)%string].

Definition get_command (cmd : list string) (job : Job.t)
    (custom_flags : option (list string)) : outcome (list string) :=
  let launch_cmd :=
    "mpirun" :: Launcher.get_options_from_job job_options_map job in
  launch_cmd <~
    (if truthy (Job.get job "bind" VNone)
     then b <~ lookup_bind (Job.get job "bind" VNone) ;;
          Done (launch_cmd ++ b)
     else Done launch_cmd) ;;
  d <~ get_distribution_options job ;;
  let launch_cmd := launch_cmd ++ d in
  let launch_cmd := match custom_flags with
                    | Some f => launch_cmd ++ f
                    | None => launch_cmd
                    end in
  Done (launch_cmd ++ "--" :: cmd).

End MpirunLauncher.

(* ================================================================== *)
(** ** envhandler.py *)

Module EnvOverride.
Import Job.

Inductive EnvOperation : Type := SET | APPEND | DELETE.

Definition mode_eqb (a b : EnvOperation) : bool :=
  match a, b with
  | SET, SET => true
  | APPEND, APPEND => true
  | DELETE, DELETE => true
  | _, _ => false
  end.

Record t : Type := mk {
  _key : string;
  _mode : EnvOperation;
  _value : value
}.

Definition __init__ (key : string) (mode : EnvOperation) (value : value)
    : outcome t :=
  let self := mk key mode value in
  if is_none value then
    match mode with
    | SET => Fail (ValueError "The new value must not be None!")
    | APPEND => Fail (ValueError "The new value must not be None!")
    | DELETE => Done self
    end
  else Done self.

(** What an attribute of an instance is. *)
Inductive attribute : Type :=
| AKey (s : string)
| AMode (m : EnvOperation)
| AValue (v : value)
| AEnumClass
| AMethod.

(** [self.name]: the attributes [__init__] sets and those of the class. *)
Definition getattr (self : t) (name : string) : outcome attribute :=
  if String.eqb name "_key" then Done (AKey (_key self))
  else if String.eqb name "_mode" then Done (AMode (_mode self))
  else if String.eqb name "_value" then Done (AValue (_value self))
  else if String.eqb name "EnvOperation" then Done AEnumClass
  else if String.eqb name "__init__" then Done AMethod
  else if String.eqb name "apply" then Done AMethod
  else Fail (AttributeError "EnvOverride" name).

(** [a.name] for a member of the enumeration. *)
Definition member (a : attribute) (name : string) : outcome EnvOperation :=
  match a with
  | AEnumClass =>
      if String.eqb name "SET" then Done SET
      else if String.eqb name "APPEND" then Done APPEND
      else if String.eqb name "DELETE" then Done DELETE
      else Fail (AttributeError "EnvOperation" name)
  | AKey _ => Fail (AttributeError "str" name)
  | AMode _ => Fail (AttributeError "EnvOperation" name)
  | AValue _ => Fail (AttributeError "object" name)
  | AMethod => Fail (AttributeError "method" name)
  end.

(** [del env[key]] *)
Fixpoint delitem {V} (k : string) (d : Py.dict V) : Py.dict V :=
  match d with
  | [] => []
  | (k', v) :: d' =>
      if String.eqb k k' then d' else (k', v) :: delitem k d'
  end.

(** [apply(self, env)]: the environment after it. *)
Definition apply (self : t) (env : Py.dict string)
    : outcome (Py.dict string) :=
  c <~ getattr self "EnvOverride" ;;
  m <~ member c "SET" ;;
  if mode_eqb (_mode self) m
  then Done (Py.setitem (_key self) (str (_value self)) env)
  else
    c <~ getattr self "EnvOverride" ;;
    m <~ member c "APPEND" ;;
    if mode_eqb (_mode self) m
    then
      match Py.get (_key self) env with
      | Some old =>
          Done (Py.setitem (_key self)
                  (old ++ ":" ++ str (_value self))%string env)
      | None => Done (Py.setitem (_key self) (str (_value self)) env)
      end
    else
      c <~ getattr self "NamelistOperation" ;;
      m <~ member c "DELETE" ;;
      if mode_eqb (_mode self) m
      then
        match Py.get (_key self) env with
        | Some _ => Done (delitem (_key self) env)
        | None => Done env
        end
      else Done env.

End EnvOverride.

Module EnvHandler.
Import Job.

Record t : Type := mk { _overrides : list EnvOverride.t }.

(** The overrides are [EnvOverride] objects by their type. *)
Definition __init__ (overrides : list EnvOverride.t) : outcome t :=
  Done (mk overrides).

(** The loop of [execute] over [new_env]. *)
Fixpoint apply_all (overrides : list EnvOverride.t) (new_env : Py.dict string)
    : outcome (Py.dict string) :=
  match overrides with
  | [] => Done new_env
  | override :: rest =>
      new_env <~ EnvOverride.apply override new_env ;;
      apply_all rest new_env
  end.

(** [execute(self, env)]: [new_env] is a copy of [env]. *)
Definition execute (self : t) (env : Py.dict string)
    : outcome (Py.dict string) :=
  apply_all (_overrides self) env.

End EnvHandler.

(* ================================================================== *)
(** ** launch/arch.py *)

Module DefaultArch.
Import Job.

(** The launcher and the CPU configuration play no role in [process]. *)
Record t : Type := mk {
  _account : option string;
  _partition : option string
}.

(** [job.set(key, v)]: the attribute is looked up and called. *)
Definition job_set (job : Job.t) : outcome unit :=
  _ <~ Job.getattr job "set" ;;
  Fail TypeError.

Definition process (self : t) (job : option Job.t) (kwargs : Py.dict value)
    : outcome (Job.t * list EnvHandler.t) :=
  let env_handlers := [] in
  let account := _account self in
  let partition := _partition self in
  let job := Job.__init__ job kwargs in
  _ <~ (if Py.truthy_str partition then job_set job else Done tt) ;;
  _ <~ (if Py.truthy_str account then job_set job else Done tt) ;;
  if truthy (Job.get job "cpus_per_task" VNone)
  then
    override <~ EnvOverride.__init__ "OMP_NUM_THREADS" EnvOverride.SET
                  (Job.get job "cpus_per_task" VNone) ;;
    handler <~ EnvHandler.__init__ [override] ;;
    Done (job, env_handlers ++ [handler])
  else Done (job, env_handlers).

End DefaultArch.

(* ================================================================== *)
(** * Properties *)

(** ** The embedding on small inputs *)

Module Checks.
Import Scenario.

Example path_of_str :
  Path.of_str "/a//b/./c" = Path.mk true ["a"; "b"; "c"]
  /\ Path.of_str "a/b/" = Path.mk false ["a"; "b"]
  /\ Path.str (Path.of_str "") = "."
  /\ Path.str (Path.mk true []) = "/".
Proof. repeat split. Qed.

Example relative_path_is_not_below_root :
  Path.relative_to (Path.of_str "data.grib") (Path.of_str "/")
  = Raise (ValueError "data.grib is not in the subpath of /").
Proof. reflexivity. Qed.

Example decode_empty_mapping :
  InputFile.from_dict disk [] (Some "/data/B") false
  = ([], Raise (KeyError "popitem(): dictionary is empty")).
Proof. reflexivity. Qed.

Example decode_two_keys :
  InputFile.from_dict disk
    (InputFile.to_dict grib_b ++ InputFile.to_dict notes)
    (Some "/data/B") false
  = (InputFile.to_dict grib_b, Raise AssertionError).
Proof. reflexivity. Qed.

Example decode_wrong_checksum :
  snd (InputFile.from_dict disk
         [("data.grib",
           InputFile.mkmeta "/data/B/data.grib" (Some "bad") None)]
         (Some "/data/B") true)
  = Raise (ValueError "Checksum for data.grib does not match").
Proof. reflexivity. Qed.

Example encode_registry :
  ExperimentFiles.to_dict reg_b
  = [("exp",
      [("/data/B",
        [("data.grib",
          InputFile.mkmeta "/data/B/data.grib" (Some "c0ffee") (Some 42%Z));
         ("ifsdata/clim.grib",
          InputFile.mkmeta "/data/B/ifsdata/clim.grib" (Some "beef")
            (Some 7%Z))])])].
Proof. reflexivity. Qed.

Example add_files_in_turn :
  ExperimentFiles.add_file toy_hash disk reg_ab
    ["/data/B/notes.txt"; "/data/B/data.grib"; "/scratch/in/data.grib"] true
  = (ExperimentFiles.mk "exp" [root_a; root_b] [notes; grib_a], Ok tt).
Proof. reflexivity. Qed.

Example add_pending_file_unverified :
  ExperimentFiles.add_input_file toy_hash disk reg_ab [grib_b_pending] false
  = (ExperimentFiles.mk "exp" [root_a; root_b] [grib_b_pending], Ok tt).
Proof. reflexivity. Qed.

Example add_pending_file_verified :
  ExperimentFiles.add_input_file toy_hash disk reg_ab [grib_b_pending] true
  = (reg_ab,
     Raise (ValueError "Input file data.grib not found in source directories")).
Proof. reflexivity. Qed.

Example update_to_no_roots :
  ExperimentFiles.update_srcdir toy_hash disk reg_b_notes [] true true
  = (ExperimentFiles.mk "exp" [] [grib_b; clim; notes], Ok tt).
Proof. reflexivity. Qed.

Example right_aligned_rule :
  let rule := SpecialRelativePath.from_filename (Re.Lit "abc")
                [Re.Ref "pre"; Re.Text "-"; Re.Ref "match"]
                SpecialRelativePath.RIGHT_ALIGNED in
  SpecialRelativePath.__call__ rule "/dir/xxabc" = "xx-abc"
  /\ SpecialRelativePath.__call__ rule "/dir/xxabcy" = "/dir/xxabcy".
Proof. split; reflexivity. Qed.

Example directory_rule :
  let rule := SpecialRelativePath.from_dirname (Re.Lit "abc")
                [Re.Ref "parent"; Re.Text "X"; Re.Ref "child"]
                SpecialRelativePath.EXACT in
  SpecialRelativePath.__call__ rule "/r/abc/y/z" = "/r/X/y/z"
  /\ SpecialRelativePath.__call__ rule "/r/abc" = "/r/abc".
Proof. split; reflexivity. Qed.

Example sub_every_match :
  Re.sub (Re.Lit "a") [Re.Text "-"] "banana" = "b-n-n-"
  /\ Re.sub (Re.LazyStar Re.NotSlash) [Re.Text "-"] "ab/d" = "-----/---".
Proof. split; reflexivity. Qed.

End Checks.

(** ** Strings and paths *)

Module PathFacts.
Import Path.

Lemma append_nil_r (s : string) : (s ++ "")%string = s.
Proof. induction s as [|c s IH]; simpl; [reflexivity | now rewrite IH]. Qed.


Lemma split_not_nil s : split s <> [].
Proof.
  destruct s as [|c s]; simpl; [discriminate|].
  destruct (Ascii.eqb c slash); [discriminate|].
  destruct (split s); discriminate.
Qed.

Lemma split_no_slash s : has_slash s = false -> split s = [s].
Proof.
  induction s as [|c s IH]; simpl; intros H; [reflexivity|].
  apply orb_false_elim in H as [Hc Hs]. rewrite Hc, (IH Hs). reflexivity.
Qed.

Lemma split_app_slash a s :
  has_slash a = false ->
  split (a ++ String slash s) = a :: split s.
Proof.
  induction a as [|c a IH]; simpl; intros H.
  - reflexivity.
  - apply orb_false_elim in H as [Hc Ha]. rewrite Hc, (IH Ha). reflexivity.
Qed.

Lemma seg_ok_no_slash x : seg_ok x = true -> has_slash x = false.
Proof.
  unfold seg_ok. intros H. apply andb_prop in H as [_ H].
  now apply negb_true_iff in H.
Qed.

Lemma seg_ok_keep x : seg_ok x = true -> keep_segment x = true.
Proof. unfold seg_ok. intros H. now apply andb_prop in H as [H _]. Qed.

Lemma split_join l :
  l <> [] -> forallb seg_ok l = true -> split (join l) = l.
Proof.
  induction l as [|a l IH]; intros Hne H; [congruence|].
  simpl in H. apply andb_prop in H as [Ha Hl].
  destruct l as [|b l].
  - simpl. now apply split_no_slash, seg_ok_no_slash.
  - change (join (a :: b :: l)) with (a ++ String slash (join (b :: l)))%string.
    rewrite split_app_slash by now apply seg_ok_no_slash.
    rewrite IH; [reflexivity | discriminate | assumption].
Qed.

Lemma filter_keep l :
  forallb seg_ok l = true -> filter keep_segment l = l.
Proof.
  induction l as [|a l IH]; simpl; intros H; [reflexivity|].
  apply andb_prop in H as [Ha Hl].
  now rewrite (seg_ok_keep _ Ha), IH.
Qed.

Lemma seg_ok_head a :
  seg_ok a = true -> exists c r, a = String c r /\ Ascii.eqb c slash = false.
Proof.
  destruct a as [|c r]; [discriminate|]. intros H.
  apply seg_ok_no_slash in H. simpl in H.
  apply orb_false_elim in H as [Hc _]. now exists c, r.
Qed.

Lemma prefix_slash_cons c r :
  Ascii.eqb c slash = false -> String.prefix "/" (String c r) = false.
Proof.
  intros H.
  change (String.prefix "/" (String c r))
    with (if ascii_dec "/"%char c then String.prefix "" r else false).
  destruct (ascii_dec "/"%char c) as [E|E]; [|reflexivity].
  subst c. discriminate.
Qed.

Lemma prefix_slash_slash x : String.prefix "/" (String slash x) = true.
Proof.
  change (String.prefix "/" (String slash x))
    with (if ascii_dec "/"%char slash then String.prefix "" x else false).
  destruct (ascii_dec "/"%char slash) as [E|E]; [|now elim E].
  destruct x; reflexivity.
Qed.

(** [Path(str(p))] is [p] for the paths pathlib builds. *)
Lemma of_str_str p : wf p -> of_str (str p) = p.
Proof.
  destruct p as [abs l]. unfold wf, of_str, str. cbn [absolute parts].
  intros H. destruct abs.
  - destruct l as [|a l]; [reflexivity|].
    change ("/" ++ join (a :: l))%string with (String slash (join (a :: l))).
    change (split (String slash (join (a :: l))))
      with (EmptyString :: split (join (a :: l))).
    rewrite split_join by (discriminate || assumption).
    change (filter keep_segment ("" :: a :: l))
      with (filter keep_segment (a :: l)).
    rewrite filter_keep by assumption.
    now rewrite prefix_slash_slash.
  - destruct l as [|a l]; [reflexivity|].
    rewrite split_join by (discriminate || assumption).
    rewrite filter_keep by assumption. f_equal.
    simpl in H. apply andb_prop in H as [Ha _].
    destruct (seg_ok_head _ Ha) as (c & r & -> & Hc).
    destruct l; simpl join; now apply prefix_slash_cons.
Qed.


Lemma eqb_refl p : eqb p p = true.
Proof.
  unfold eqb. rewrite Bool.eqb_reflx.
  destruct (list_eq_dec string_dec (parts p) (parts p)) as [E|E];
    [reflexivity | now elim E].
Qed.

Lemma eqb_eq p q : eqb p q = true <-> p = q.
Proof.
  split; [|intros ->; apply eqb_refl].
  unfold eqb. destruct p as [a l], q as [b m]. simpl. intros H.
  apply andb_prop in H as [Ha Hl]. apply Bool.eqb_prop in Ha.
  destruct (list_eq_dec string_dec l m); [congruence | discriminate].
Qed.





End PathFacts.

(** ** Dictionaries *)

Module DictFacts.

Lemma popitem_none {V} (d : dict V) : popitem d = None <-> d = [].
Proof.
  destruct d as [|kv d]; simpl; [tauto|].
  destruct (popitem d) as [[l r]|]; split; discriminate.
Qed.

Lemma popitem_length {V} (d : dict V) kv rest :
  popitem d = Some (kv, rest) -> List.length d = S (List.length rest).
Proof.
  revert kv rest. induction d as [|x d IH]; simpl; intros kv rest H.
  - discriminate.
  - destruct (popitem d) as [[l r]|] eqn:E.
    + injection H as <- <-. simpl. now rewrite (IH _ _ eq_refl).
    + injection H as <- <-. apply popitem_none in E. now subst d.
Qed.

Lemma popitem_single {V} (kv : string * V) : popitem [kv] = Some (kv, []).
Proof. reflexivity. Qed.

Lemma nonempty_length {A} (l : list A) :
  nonempty l = negb (Nat.eqb (List.length l) 0).
Proof. now destruct l. Qed.

Lemma get_setitem_same {V} k (v : V) d : get k (setitem k v d) = Some v.
Proof.
  induction d as [|[k' v'] d IH]; simpl.
  - now rewrite String.eqb_refl.
  - destruct (String.eqb k k') eqn:E; simpl.
    + now rewrite String.eqb_refl.
    + now rewrite E.
Qed.

Lemma get_setitem_other {V} k k' (v : V) d :
  k' <> k -> get k' (setitem k v d) = get k' d.
Proof.
  intros N. induction d as [|[k0 v0] d IH]; simpl.
  - apply String.eqb_neq in N. now rewrite N.
  - destruct (String.eqb k k0) eqn:E; simpl.
    + apply String.eqb_eq in E. subst k0.
      apply String.eqb_neq in N. now rewrite N.
    + now rewrite IH.
Qed.

Lemma keys_setitem {V} k (v : V) d : keys (setitem k v d) = add_key (keys d) k.
Proof.
  unfold add_key. induction d as [|[k' v'] d IH]; simpl; [reflexivity|].
  destruct (String.eqb k k') eqn:E; simpl.
  - apply String.eqb_eq in E. now subst.
  - rewrite IH. unfold keys. now destruct (existsb _ (map fst d)).
Qed.

Lemma In_add_key acc k x : In x (add_key acc k) -> x = k \/ In x acc.
Proof.
  unfold add_key. destruct (existsb _ acc); [auto|].
  intros H. apply in_app_or in H as [H|[H|[]]]; auto.
Qed.

Lemma nodup_add_key acc k : NoDup acc -> NoDup (add_key acc k).
Proof.
  unfold add_key. destruct (existsb (String.eqb k) acc) eqn:E; [auto|].
  intros H. induction H as [|a l Ha Hl IH]; simpl in *.
  - constructor; [easy | constructor].
  - apply orb_false_elim in E as [Eka E]. constructor; [|now apply IH].
    intros I. apply in_app_or in I as [I|[I|[]]]; [easy|].
    subst a. now rewrite String.eqb_refl in Eka.
Qed.

Lemma nodup_setitem {V} k (v : V) d :
  NoDup (keys d) -> NoDup (keys (setitem k v d)).
Proof. rewrite keys_setitem. apply nodup_add_key. Qed.

Lemma In_setitem {V} k (v : V) d k' v' :
  In (k', v') (setitem k v d) -> (k', v') = (k, v) \/ In (k', v') d.
Proof.
  induction d as [|[k0 v0] d IH]; simpl.
  - intros [H|[]]; auto.
  - destruct (String.eqb k k0); simpl; intros [H|H]; auto.
    apply IH in H as [H|H]; auto.
Qed.

Lemma get_In {V} k (v : V) d : get k d = Some v -> In (k, v) d.
Proof.
  induction d as [|[k' v'] d IH]; simpl; [discriminate|].
  destruct (String.eqb k k') eqn:E.
  - apply String.eqb_eq in E. intros [= ->]. left. now subst.
  - auto.
Qed.

Lemma In_get {V} k (v : V) d :
  NoDup (keys d) -> In (k, v) d -> get k d = Some v.
Proof.
  induction d as [|[k' v'] d IH]; simpl; [easy|].
  intros N. inversion N as [|? ? Hk Hd]; subst.
  intros [[= -> ->]|I].
  - now rewrite String.eqb_refl.
  - destruct (String.eqb k k') eqn:E; [|auto].
    apply String.eqb_eq in E. subst k'. elim Hk.
    change k with (fst (k, v)). now apply in_map.
Qed.

End DictFacts.

(** ** Path rewrite rules *)

Module RuleFacts.
Import SpecialRelativePath Scenario.



End RuleFacts.

(** ** Destination of a file *)

Module PlacementFacts.
Import ExperimentFilesBenchmark Scenario.




End PlacementFacts.

(** ** InputFile: identity, manifest entry *)

Module InputFileFacts.
Import InputFile.

Lemma opt_str_eqb_eq a b : opt_str_eqb a b = true <-> a = b.
Proof.
  destruct a as [x|], b as [y|]; simpl; split; try congruence.
  - intros H. apply String.eqb_eq in H. now subst.
  - intros [= ->]. apply String.eqb_refl.
Qed.

Lemma hash_arg_truthy f :
  truthy_str (checksum f) = true ->
  exists c, checksum f = Some c /\ hash_arg f = HStr c.
Proof.
  unfold hash_arg. destruct (checksum f) as [c|]; [|discriminate].
  intros H. rewrite H. now exists c.
Qed.

Lemma hash_arg_falsy f :
  truthy_str (checksum f) = false -> hash_arg f = HPath (fullpath f).
Proof.
  unfold hash_arg. destruct (checksum f) as [c|]; [|reflexivity].
  now intros ->.
Qed.

(** C3, as the code has it.  [__eq__] compares checksums when both files
    have a (non-empty) checksum and full paths otherwise.  Two equal files
    have equal hashes whenever both have a checksum or neither has; in
    particular two files with one and the same non-empty checksum are
    equal and hash alike, wherever they lie. *)
Theorem identity_and_hash (py_hash : hashable -> Z) (f1 f2 : t) :
  __eq__ f1 f2 =
    (if truthy_str (checksum f1) && truthy_str (checksum f2)
     then opt_str_eqb (checksum f1) (checksum f2)
     else Path.eqb (fullpath f1) (fullpath f2))
  /\ (truthy_str (checksum f1) = truthy_str (checksum f2) ->
      __eq__ f1 f2 = true ->
      __hash__ py_hash f1 = __hash__ py_hash f2)
  /\ (truthy_str (checksum f1) = true ->
      checksum f1 = checksum f2 ->
      __eq__ f1 f2 = true /\ __hash__ py_hash f1 = __hash__ py_hash f2).
Proof.
  assert (Heq : __eq__ f1 f2 =
    (if truthy_str (checksum f1) && truthy_str (checksum f2)
     then opt_str_eqb (checksum f1) (checksum f2)
     else Path.eqb (fullpath f1) (fullpath f2))).
  { unfold __eq__.
    destruct (truthy_str (checksum f1)), (truthy_str (checksum f2));
      reflexivity. }
  assert (Hhash : truthy_str (checksum f1) = truthy_str (checksum f2) ->
                  __eq__ f1 f2 = true ->
                  __hash__ py_hash f1 = __hash__ py_hash f2).
  { intros Ht He. rewrite Heq in He. unfold __hash__. f_equal.
    destruct (truthy_str (checksum f1)) eqn:T1.
    - symmetry in Ht. rewrite Ht in He. simpl in He.
      apply opt_str_eqb_eq in He.
      destruct (hash_arg_truthy f1 T1) as (c1 & E1 & ->).
      destruct (hash_arg_truthy f2 Ht) as (c2 & E2 & ->).
      congruence.
    - simpl in He. apply PathFacts.eqb_eq in He. symmetry in Ht.
      rewrite (hash_arg_falsy f1 T1), (hash_arg_falsy f2 Ht). now rewrite He. }
  split; [exact Heq|]. split; [exact Hhash|].
  intros T1 Hc.
  assert (T2 : truthy_str (checksum f2) = true) by now rewrite <- Hc.
  assert (He : __eq__ f1 f2 = true).
  { rewrite Heq, T1, T2. simpl. now apply opt_str_eqb_eq. }
  split; [exact He|]. apply Hhash; [now rewrite T1, T2 | exact He].
Qed.

Lemma identity_and_hash_witness :
  Path.eqb (fullpath Scenario.grib_a) (fullpath Scenario.grib_b) = false
  /\ __eq__ Scenario.grib_a Scenario.grib_b = true
  /\ __hash__ Scenario.toy_hash Scenario.grib_a
     = __hash__ Scenario.toy_hash Scenario.grib_b.
Proof.
  split; [reflexivity|].
  apply (identity_and_hash Scenario.toy_hash Scenario.grib_a Scenario.grib_b);
    reflexivity.
Defined.

(** C3, as stated, fails: a file with a checksum and a file without one
    at the same full path are equal, yet the first is hashed by its
    checksum and the second by its path. *)
Lemma equal_files_with_unequal_hash :
  ~ (forall (py_hash : hashable -> Z) (f1 f2 : t),
       __eq__ f1 f2 = true -> __hash__ py_hash f1 = __hash__ py_hash f2).
Proof.
  intros H.
  specialize (H Scenario.toy_hash Scenario.grib_b Scenario.grib_b_pending
                eq_refl).
  discriminate H.
Qed.





(** C2 at an empty file: [to_dict] leaves the size [0] out and
    [from_dict] gives a file without size; path and checksum are kept. *)
Theorem empty_file_loses_size :
  size Scenario.empty_file = Some 0%Z
  /\ exists f',
       snd (from_dict Scenario.disk (to_dict Scenario.empty_file)
              (Some (Path.str (src_dir Scenario.empty_file))) false) = Ok f'
       /\ path f' = path Scenario.empty_file
       /\ checksum f' = checksum Scenario.empty_file
       /\ size f' = None.
Proof.
  split; [reflexivity|]. eexists. split; [reflexivity|]. repeat split.
Qed.

End InputFileFacts.

(** ** Sets of InputFile *)

Module SetFacts.
Section WithHash.
Variable py_hash : InputFile.hashable -> Z.

Local Abbreviation add := (PySet.add py_hash).
Local Abbreviation of_list := (PySet.of_list py_hash).
Local Abbreviation same := (PySet.same py_hash).

Lemma add_keeps x s y : In y s -> In y (add x s).
Proof.
  unfold PySet.add. destruct (existsb _ s); [auto|].
  intros H. apply in_or_app. now left.
Qed.

Lemma add_inv x s y : In y (add x s) -> y = x \/ In y s.
Proof.
  unfold PySet.add. destruct (existsb _ s); [auto|].
  intros H. apply in_app_or in H as [H|[H|[]]]; auto.
Qed.

Lemma add_new x s :
  In x (add x s) \/ exists y, In y s /\ same y x = true.
Proof.
  unfold PySet.add. destruct (existsb _ s) eqn:E.
  - right. apply existsb_exists in E. exact E.
  - left. apply in_or_app. right. now left.
Qed.

Lemma wf_incl (s s' : list InputFile.t) :
  incl s' s -> PySet.wf py_hash s -> PySet.wf py_hash s'.
Proof. intros I W x y Hx Hy. apply W; now apply I. Qed.

Lemma fold_add_In l acc x :
  In x (fold_left (fun s y => add y s) l acc) -> In x acc \/ In x l.
Proof.
  revert acc. induction l as [|a l IH]; simpl; intros acc H; [auto|].
  apply IH in H as [H|H]; [|auto].
  apply add_inv in H as [->|H]; auto.
Qed.

Lemma fold_add_keeps l acc x :
  In x acc -> In x (fold_left (fun s y => add y s) l acc).
Proof.
  revert acc. induction l as [|a l IH]; simpl; intros acc H; [auto|].
  apply IH. now apply add_keeps.
Qed.

Lemma fold_add_wf l acc x :
  PySet.wf py_hash (acc ++ l) ->
  In x l -> In x (fold_left (fun s y => add y s) l acc).
Proof.
  revert acc. induction l as [|a l IH]; simpl; intros acc W H; [easy|].
  assert (Ia : In a (add a acc)).
  { destruct (add_new a acc) as [Ha|(y & Hy & Hs)]; [exact Ha|].
    assert (y = a) as ->; [|now apply add_keeps].
    apply W; [apply in_or_app; now left | apply in_or_app; right; now left
             | exact Hs]. }
  destruct H as [->|H].
  - now apply fold_add_keeps.
  - apply IH; [|exact H].
    apply wf_incl with (s := acc ++ a :: l); [|exact W].
    intros z Hz. apply in_app_or in Hz as [Hz|Hz].
    + apply add_inv in Hz as [->|Hz]; apply in_or_app;
        [right; now left | now left].
    + apply in_or_app. right. now right.
Qed.

Lemma opt_str_eqb_sym a b : opt_str_eqb a b = opt_str_eqb b a.
Proof. destruct a, b; simpl; auto using String.eqb_sym. Qed.

Lemma path_eqb_sym p q : Path.eqb p q = Path.eqb q p.
Proof.
  destruct (Path.eqb p q) eqn:E.
  - apply PathFacts.eqb_eq in E. subst. symmetry. apply PathFacts.eqb_refl.
  - destruct (Path.eqb q p) eqn:E'; [|reflexivity].
    apply PathFacts.eqb_eq in E'. subst.
    now rewrite PathFacts.eqb_refl in E.
Qed.

Lemma same_sym x y : same x y = same y x.
Proof.
  unfold PySet.same, InputFile.__eq__.
  rewrite Z.eqb_sym, (orb_comm (negb (truthy_str (InputFile.checksum x)))).
  now rewrite opt_str_eqb_sym, path_eqb_sym.
Qed.

(** [add] keeps a set a set. *)
Lemma add_wf x s : PySet.wf py_hash s -> PySet.wf py_hash (add x s).
Proof.
  unfold PySet.add. destruct (existsb _ s) eqn:E; [auto|].
  intros W a b Ia Ib H.
  assert (N : forall y, In y s -> same y x = false).
  { intros y Iy. destruct (same y x) eqn:S; [|reflexivity].
    assert (existsb (fun y => same y x) s = true); [|congruence].
    apply existsb_exists. now exists y. }
  apply in_app_or in Ia as [Ia|[<-|[]]]; apply in_app_or in Ib as [Ib|[<-|[]]].
  - now apply W.
  - rewrite (N a Ia) in H. discriminate H.
  - rewrite same_sym, (N b Ib) in H. discriminate H.
  - reflexivity.
Qed.

Lemma fold_add_is_wf l acc :
  PySet.wf py_hash acc ->
  PySet.wf py_hash (fold_left (fun s y => add y s) l acc).
Proof.
  revert acc. induction l as [|a l IH]; simpl; intros acc W; [exact W|].
  apply IH. now apply add_wf.
Qed.

Lemma of_list_is_wf l : PySet.wf py_hash (of_list l).
Proof. apply fold_add_is_wf. intros ? ? []. Qed.

(** Building a set from the elements of a set keeps every element. *)
Lemma of_list_In l x : In x (of_list l) -> In x l.
Proof. intros H. apply fold_add_In in H as [[]|H]. exact H. Qed.

Lemma of_list_wf l x : PySet.wf py_hash l -> In x l -> In x (of_list l).
Proof. intros W H. now apply fold_add_wf. Qed.

End WithHash.
End SetFacts.

(** ** Rebase against the source directories *)

Module RebaseFacts.
Import ExperimentFiles Rebase.

Section WithFS.
Variable fs : FS.t.

Lemma is_prefix_skipn a b :
  Path.is_prefix a b = true -> a ++ skipn (List.length a) b = b.
Proof.
  revert b. induction a as [|x a IH]; intros [|y b]; simpl; intros H;
    try reflexivity; try discriminate.
  apply andb_prop in H as [Hx H]. apply String.eqb_eq in Hx. subst y.
  now rewrite IH.
Qed.

Lemma rev_head_last (l : list string) final tl :
  rev l = final :: tl -> last l "" = final.
Proof.
  intros H. rewrite <- (rev_involutive l), H. simpl. apply last_last.
Qed.

Lemma below_spec root name p :
  FS.below root name p = true ->
  Path.relative_to p root = Ok (rel_path root p)
  /\ root // rel_path root p = p
  /\ Path.name (rel_path root p) = name.
Proof.
  unfold FS.below. intros H.
  apply andb_prop in H as [H Hn]. apply andb_prop in H as [Ha Hp].
  split; [|split].
  - unfold Path.relative_to. now rewrite Ha, Hp.
  - unfold Path.truediv, rel_path. simpl. rewrite is_prefix_skipn by exact Hp.
    apply Bool.eqb_prop in Ha. destruct p as [abs l]. simpl in *. now subst.
  - unfold Path.name, rel_path. simpl.
    destruct (rev (skipn (List.length (Path.parts root)) (Path.parts p)))
      as [|final tl] eqn:E; [discriminate|].
    apply String.eqb_eq in Hn. subst name. now apply rev_head_last in E.
Qed.

Lemma lookup_member e :
  In e fs -> exists e', FS.lookup fs (FS.f_path e) = Some e'.
Proof.
  intros H. unfold FS.lookup.
  destruct (find _ fs) as [e'|] eqn:E; [now exists e'|].
  apply (find_none _ _ E) in H. now rewrite PathFacts.eqb_refl in H.
Qed.

Lemma glob_member root name p :
  In p (FS.glob fs root name) ->
  FS.below root name p = true /\ exists e, FS.lookup fs p = Some e.
Proof.
  unfold FS.glob. intros H. apply in_map_iff in H as (e & <- & H).
  apply filter_In in H as [H B]. split; [exact B|]. now apply lookup_member.
Qed.

(** [InputFile(path, src_dir)] succeeds on every candidate of the glob. *)
Lemma init_candidate root name p :
  In p (FS.glob fs root name) ->
  exists e,
    FS.lookup fs p = Some e
    /\ InputFile.__init__ fs p (Some root) true
       = Ok (InputFile.mk root (rel_path root p)
               (Some (FS.f_sha256 e)) (Some (FS.f_size e))).
Proof.
  intros H. apply glob_member in H as [B (e & L)].
  destruct (below_spec _ _ _ B) as (R & T & _).
  exists e. split; [exact L|].
  unfold InputFile.__init__. rewrite R. simpl.
  unfold InputFile._sha256sum, InputFile._size. rewrite T, L. reflexivity.
Qed.

Lemma candidate_checksum name c :
  from_glob fs name c ->
  exists f, built fs c = Some f
            /\ InputFile.__init__ fs (fst c) (Some (snd c)) true = Ok f
            /\ InputFile.checksum f = candidate_sum fs (fst c)
            /\ InputFile.src_dir f = snd c
            /\ InputFile.path f = rel_path (snd c) (fst c).
Proof.
  intros H. destruct (init_candidate _ _ _ H) as (e & L & I).
  eexists. unfold built. rewrite I. repeat split.
  unfold candidate_sum. now rewrite L.
Qed.

(** The loop returns the first candidate, in list order, whose checksum
    is the one looked for. *)
Lemma first_match_find name f cands :
  Forall (from_glob fs name) cands ->
  first_match fs f cands
  = Ok (match find (matches fs f) cands with
        | Some c => built fs c
        | None => None
        end).
Proof.
  induction 1 as [|c cands Hc _ IH]; simpl; [reflexivity|].
  destruct (candidate_checksum _ _ Hc) as (g & B & I & S & _).
  destruct c as [p root]. simpl in *. rewrite I. simpl.
  unfold matches at 1. simpl. rewrite <- S.
  destruct (opt_str_eqb (InputFile.checksum g) (InputFile.checksum f));
    [now rewrite B | exact IH].
Qed.

Lemma candidates_from_glob self f :
  Forall (from_glob fs (Path.name (InputFile.path f))) (candidates fs self f).
Proof.
  apply Forall_forall. intros c H. unfold candidates in H.
  apply in_flat_map in H as (root & _ & H).
  apply in_map_iff in H as (p & <- & H). exact H.
Qed.


Lemma find_candidates_none f roots :
  has_match fs roots f = false ->
  find (matches fs f)
       (flat_map
          (fun root => map (fun p => (p, root))
             (FS.glob fs root (Path.name (InputFile.path f)))) roots) = None.
Proof.
  intros H.
  destruct (find _ _) as [c|] eqn:E; [|reflexivity].
  apply find_some in E as [I M].
  apply in_flat_map in I as (root & Hr & I).
  apply in_map_iff in I as (p & <- & I).
  assert (has_match fs roots f = true); [|congruence].
  apply existsb_exists. exists root. split; [exact Hr|].
  apply existsb_exists. now exists p.
Qed.


End WithFS.
End RebaseFacts.

(** ** ExperimentFiles: adding files, changing the source directories *)

Module RegistryFacts.
Import ExperimentFiles Rebase RebaseFacts.

Section WithHash.
Variable py_hash : InputFile.hashable -> Z.
Variable fs : FS.t.

Lemma nonempty_true {A} (l : list A) : l <> [] -> nonempty l = true.
Proof. destruct l; [congruence | reflexivity]. Qed.

Lemma rebase_eq self f v :
  src_dir self <> [] ->
  _input_file_in_src_dir fs self f v
  = match find (matches fs f) (candidates fs self f) with
    | Some c => match built fs c with
                | Some g => Ok g
                | None => if v then Raise (ValueError (not_found_msg
                                       (Path.name (InputFile.path f))))
                          else Ok f
                end
    | None => if v then Raise (ValueError (not_found_msg
                                 (Path.name (InputFile.path f))))
              else Ok f
    end.
Proof.
  intros H. unfold _input_file_in_src_dir.
  rewrite (nonempty_true _ H). simpl.
  rewrite (first_match_find fs _ _ _ (candidates_from_glob fs self f)).
  simpl. destruct (find _ _) as [c|]; [|reflexivity].
  now destruct (built fs c).
Qed.



Lemma rebase_all_keeps self old new res x :
  rebase_all py_hash fs self old new = Ok res -> In x new -> In x res.
Proof.
  revert new. induction old as [|f old IH]; simpl; intros new H I.
  - now injection H as <-.
  - destruct (_input_file_in_src_dir fs self f true) as [g|e]; simpl in H;
      [|discriminate].
    apply (IH _ H). now apply SetFacts.add_keeps.
Qed.

Lemma rebase_all_wf self old new res :
  PySet.wf py_hash new ->
  rebase_all py_hash fs self old new = Ok res -> PySet.wf py_hash res.
Proof.
  revert new. induction old as [|f old IH]; simpl; intros new W H.
  - now injection H as <-.
  - destruct (_input_file_in_src_dir fs self f true) as [g|e]; simpl in H;
      [|discriminate].
    apply (IH _ (SetFacts.add_wf py_hash g new W) H).
Qed.

(** [update_srcdir] leaves the files a set. *)
Lemma update_srcdir_wf self roots update_files with_ifsdata :
  PySet.wf py_hash (_files self) ->
  PySet.wf py_hash
    (_files (fst (update_srcdir py_hash fs self roots update_files
                    with_ifsdata))).
Proof.
  intros W. unfold update_srcdir, as_tuple.
  destruct update_files; [|exact W].
  destruct with_ifsdata; cbn [files exp_files ifsdata_files _files].
  - destruct (rebase_all _ _ _ _ _) as [res|e] eqn:E; [|exact W].
    apply (rebase_all_wf _ _ _ _ (fun _ _ (H : In _ []) => match H with end) E).
  - destruct (rebase_all _ _ _ _ _) as [res|e] eqn:E; [|exact W].
    apply (rebase_all_wf _ _ _ _ (SetFacts.of_list_is_wf py_hash _) E).
Qed.




(** C9.  [update_srcdir] with [update_files] and without [with_ifsdata]
    leaves every ifsdata file of the registry in the set of files, as
    the very same value (source directory, relative path, checksum and
    size), whether the rebase of the other files succeeds or raises; on
    success the set is the ifsdata files with the rebased others added. *)
Theorem update_srcdir_keeps_ifsdata
    (self : t) (roots : list Path.t) (self' : t) (r : result unit) :
  PySet.wf py_hash (_files self) ->
  update_srcdir py_hash fs self roots true false = (self', r) ->
  (forall f, In f (_files self) -> in_ifsdata f = true -> In f (_files self'))
  /\ (r = Ok tt ->
      rebase_all py_hash fs (mk (exp_id self) roots (_files self))
        (exp_files py_hash self) (ifsdata_files py_hash self)
      = Ok (_files self')).
Proof.
  intros W H. unfold update_srcdir, as_tuple in H.
  set (self1 := mk (exp_id self) roots (_files self)) in *.
  change (exp_files py_hash self1) with (exp_files py_hash self) in H.
  change (ifsdata_files py_hash self1) with (ifsdata_files py_hash self) in H.
  destruct (rebase_all py_hash fs self1 (exp_files py_hash self)
              (ifsdata_files py_hash self)) as [res|e] eqn:E.
  - injection H as <- <-. simpl. split; [|reflexivity].
    intros f I D. apply (rebase_all_keeps _ _ _ _ _ E).
    unfold ifsdata_files. apply SetFacts.of_list_wf.
    + apply SetFacts.wf_incl with (s := _files self); [|exact W].
      intros x Hx. now apply filter_In in Hx as [Hx _].
    + apply filter_In. auto.
  - injection H as <- <-. simpl. split; [auto | discriminate].
Qed.

End WithHash.

Import Scenario.




Lemma reg_b_wf : PySet.wf toy_hash (_files reg_b).
Proof.
  intros x y [<-|[<-|[]]] [<-|[<-|[]]] H; try reflexivity; discriminate H.
Qed.

Lemma update_srcdir_keeps_ifsdata_witness :
  PySet.wf toy_hash (_files reg_b)
  /\ update_srcdir toy_hash disk reg_b [root_new] true false
     = (mk "exp" [root_new] [clim; grib_new], Ok tt)
  /\ in_ifsdata clim = true
  /\ In clim (_files (mk "exp" [root_new] [clim; grib_new])).
Proof.
  split; [exact reg_b_wf|]. split; [reflexivity|]. split; [reflexivity|].
  apply (update_srcdir_keeps_ifsdata toy_hash disk reg_b [root_new]
           (mk "exp" [root_new] [clim; grib_new]) (Ok tt) reg_b_wf eq_refl);
    [right; left; reflexivity | reflexivity].
Defined.

End RegistryFacts.

(** ** Manifest decoding: the single-entry step *)

Module DecodeFacts.
Import Manifest.




Lemma single_or_not {V} (d : dict V) kv rest :
  popitem d = Some (kv, rest) ->
  nonempty rest = negb (Nat.eqb (List.length d) 1)
  /\ (rest = [] -> d = [kv]).
Proof.
  intros H. pose proof (DictFacts.popitem_length _ _ _ H) as L. split.
  - rewrite L. now destruct rest.
  - intros ->. destruct d as [|x [|y d]]; try discriminate.
    simpl in H. now injection H as ->.
Qed.


Lemma popitem_shrinks {V} (d : dict V) :
  d <> [] ->
  exists kv rest,
    popitem d = Some (kv, rest) /\ List.length d = S (List.length rest).
Proof.
  intros N. destruct (popitem d) as [[kv rest]|] eqn:P.
  - exists kv, rest. split; [reflexivity|].
    now apply DictFacts.popitem_length in P.
  - now apply DictFacts.popitem_none in P.
Qed.

(** C10.  A call of either decoder that returns has removed the one
    entry of the mapping it was given: the mapping held exactly one entry
    and is empty afterwards.  More generally every call on a mapping
    that is not empty, returning or raising, leaves it one entry
    shorter. *)
Theorem from_dict_consumes_data (py_hash : InputFile.hashable -> Z)
    (fs : FS.t) :
  (forall data src_dir v data' obj,
     InputFile.from_dict fs data src_dir v = (data', Ok obj) ->
     data' = [] /\ (exists kv, data = [kv]) /\ data' <> data)
  /\ (forall data v data' obj,
        ExperimentFiles.from_dict py_hash fs data v = (data', Ok obj) ->
        data' = [] /\ (exists kv, data = [kv]) /\ data' <> data)
  /\ (forall data src_dir v,
        data <> [] ->
        S (List.length (fst (InputFile.from_dict fs data src_dir v)))
        = List.length data)
  /\ (forall data v,
        data <> [] ->
        S (List.length (fst (ExperimentFiles.from_dict py_hash fs data v)))
        = List.length data).
Proof.
  split; [|split; [|split]].
  - intros data src_dir v data' obj. unfold InputFile.from_dict.
    destruct (popitem data) as [[[p m] rest]|] eqn:P; [|discriminate].
    destruct (single_or_not _ _ _ P) as [_ S].
    destruct rest as [|x rest]; simpl; [|discriminate].
    intros [= <- _]. rewrite (S eq_refl).
    split; [reflexivity|]. split; [now eexists | discriminate].
  - intros data v data' obj. unfold ExperimentFiles.from_dict.
    destruct (popitem data) as [[[e sdf] rest]|] eqn:P; [|discriminate].
    destruct (single_or_not _ _ _ P) as [_ S].
    destruct rest as [|x rest]; simpl; [|discriminate].
    intros [= <- _]. rewrite (S eq_refl).
    split; [reflexivity|]. split; [now eexists | discriminate].
  - intros data src_dir v N.
    destruct (popitem_shrinks data N) as ([p m] & rest & P & L).
    unfold InputFile.from_dict. rewrite P, L.
    now destruct (nonempty rest).
  - intros data v N.
    destruct (popitem_shrinks data N) as ([e sdf] & rest & P & L).
    unfold ExperimentFiles.from_dict. rewrite P, L.
    now destruct (nonempty rest).
Qed.

Lemma from_dict_consumes_data_witness :
  (exists obj,
     InputFile.from_dict Scenario.disk (InputFile.to_dict Scenario.grib_b)
       (Some "/data/B") true = ([], Ok obj))
  /\ InputFile.to_dict Scenario.grib_b <> []
  /\ (exists obj,
        ExperimentFiles.from_dict Scenario.toy_hash Scenario.disk
          (ExperimentFiles.to_dict Scenario.reg_b) true = ([], Ok obj))
  /\ ExperimentFiles.to_dict Scenario.reg_b <> [].
Proof.
  destruct (from_dict_consumes_data Scenario.toy_hash Scenario.disk)
    as (HF & HR & _).
  assert (EF : InputFile.from_dict Scenario.disk
                 (InputFile.to_dict Scenario.grib_b) (Some "/data/B") true
               = ([], Ok Scenario.grib_b)) by reflexivity.
  assert (ER : ExperimentFiles.from_dict Scenario.toy_hash Scenario.disk
                 (ExperimentFiles.to_dict Scenario.reg_b) true
               = ([], Ok Scenario.reg_b)) by reflexivity.
  split; [eexists; exact EF|]. split.
  - destruct (HF _ _ _ _ _ EF) as (_ & _ & N). intros E. apply N. now rewrite E.
  - split; [eexists; exact ER|].
    destruct (HR _ _ _ _ ER) as (_ & _ & N). intros E. apply N. now rewrite E.
Defined.

End DecodeFacts.

(** ** The manifest of a registry and its round trip *)

Module ManifestFacts.
Import ExperimentFiles DictFacts Manifest.

Lemma to_dict_fold self :
  to_dict self = [(exp_id self, fold_left step (files self) [])].
Proof. reflexivity. Qed.

Lemma nodup2_nil : nodup2 [].
Proof. split; [constructor | intros ? ? []]. Qed.

Lemma nodup2_set2 sd p m data : nodup2 data -> nodup2 (set2 sd p m data).
Proof.
  intros [N1 N2]. unfold set2. split; [now apply nodup_setitem|].
  intros sd' inner' I. apply In_setitem in I as [[= -> ->]|I]; [|eauto].
  apply nodup_setitem. destruct (get sd data) as [d|] eqn:G; [|constructor].
  apply get_In in G. eauto.
Qed.

Lemma lookup2_set2_same sd p m data : lookup2 sd p (set2 sd p m data) = Some m.
Proof.
  unfold lookup2, set2. rewrite get_setitem_same. apply get_setitem_same.
Qed.

Lemma lookup2_set2_other sd p m data sd' p' :
  (sd', p') <> (sd, p) ->
  lookup2 sd' p' (set2 sd p m data) = lookup2 sd' p' data.
Proof.
  intros N. unfold lookup2, set2.
  destruct (string_dec sd' sd) as [->|Hsd].
  - rewrite get_setitem_same.
    rewrite get_setitem_other by congruence.
    now destruct (get sd data).
  - now rewrite get_setitem_other.
Qed.

Lemma entries_lookup data sd p m :
  nodup2 data ->
  In (sd, (p, m)) (entries data) <-> lookup2 sd p data = Some m.
Proof.
  intros [N1 N2]. unfold entries, lookup2. split.
  - intros I. apply in_flat_map in I as ([sd' inner] & I1 & I2).
    apply in_map_iff in I2 as ([p' m'] & [= <- <- <-] & I2). simpl in *.
    rewrite (In_get _ _ _ N1 I1). apply In_get; eauto.
  - destruct (get sd data) as [inner|] eqn:G; [|discriminate].
    intros Gp. apply get_In in G, Gp.
    apply in_flat_map. exists (sd, inner). split; [exact G|].
    apply in_map_iff. now exists (p, m).
Qed.

Lemma fold_nodup2 files data :
  nodup2 data -> nodup2 (fold_left step files data).
Proof.
  revert data. induction files as [|a files IH]; simpl; intros data N;
    [exact N|].
  apply IH. now apply nodup2_set2.
Qed.

Lemma key_dec (sd p sd' p' : string) :
  {(sd', p') = (sd, p)} + {(sd', p') <> (sd, p)}.
Proof.
  destruct (string_dec sd' sd) as [->|N]; [|right; congruence].
  destruct (string_dec p' p) as [->|N]; [now left | right; congruence].
Qed.

(** Every entry of the encoded manifest is the entry of a file. *)
Lemma fold_sound files data sd p m :
  lookup2 sd p (fold_left step files data) = Some m ->
  lookup2 sd p data = Some m
  \/ exists f, In f files /\ entry_of f = (sd, (p, m)).
Proof.
  revert data. induction files as [|a files IH]; simpl; intros data H;
    [now left|].
  apply IH in H as [H|(f & I & E)]; [|right; exists f; auto].
  unfold step in H.
  destruct (key_dec (fst (entry_of a)) (fst (snd (entry_of a))) sd p)
    as [K|K].
  - injection K as -> ->. rewrite lookup2_set2_same in H.
    injection H as <-. right. exists a. auto.
  - rewrite lookup2_set2_other in H by exact K. now left.
Qed.








Section WithHash.
Variable py_hash : InputFile.hashable -> Z.
Variable fs : FS.t.




End WithHash.

Import Scenario.




End ManifestFacts.

(* ================================================================== *)
(** * Further properties of the code *)

(** ** InputFile: construction and decoding *)

Module InputFileMore.
Import InputFile Disk.

Lemma truediv_rel base p :
  under base p = true ->
  base // Path.mk false (skipn (List.length (Path.parts base)) (Path.parts p))
  = p.
Proof.
  unfold under. intros H. apply andb_prop in H as [Ha Hp].
  unfold Path.truediv. simpl.
  rewrite (RebaseFacts.is_prefix_skipn _ _ Hp).
  apply Bool.eqb_prop in Ha. destruct p as [abs l]. simpl in *. now subst.
Qed.

Lemma init_ok fs p d cm f :
  __init__ fs p (Some d) cm = Ok f ->
  under d p = true
  /\ src_dir f = d
  /\ fullpath f = p
  /\ Path.absolute (path f) = false
  /\ (if cm then Disk.on_disk fs f else checksum f = None /\ size f = None).
Proof.
  unfold __init__, Path.relative_to.
  change (Bool.eqb (Path.absolute p) (Path.absolute d)
          && Path.is_prefix (Path.parts d) (Path.parts p))
    with (under d p).
  destruct (under d p) eqn:U; cbn [bind]; [|discriminate].
  rewrite (truediv_rel d p U).
  assert (F : forall c z,
             fullpath (mk d (Path.mk false
                         (skipn (List.length (Path.parts d)) (Path.parts p)))
                         c z) = p).
  { intros c z. unfold fullpath, src_dir. cbn [_src_dir _path].
    apply truediv_rel, U. }
  destruct cm.
  - unfold _sha256sum, _size.
    destruct (FS.lookup fs p) as [e|] eqn:L; cbn [bind]; [|discriminate].
    intros [= <-]. repeat split; try reflexivity; [apply F|].
    exists e. rewrite F. auto.
  - intros [= <-]. repeat split; try reflexivity. apply F.
Qed.

Lemma init_raise fs p d cm e :
  __init__ fs p (Some d) cm = Raise e ->
  (under d p = false
   /\ e = ValueError
            (Path.str p ++ " is not in the subpath of " ++ Path.str d))
  \/ (under d p = true /\ cm = true /\ FS.lookup fs p = None
      /\ e = CalledProcessError).
Proof.
  unfold __init__, Path.relative_to.
  change (Bool.eqb (Path.absolute p) (Path.absolute d)
          && Path.is_prefix (Path.parts d) (Path.parts p))
    with (under d p).
  destruct (under d p) eqn:U; cbn [bind]; [|intros [= <-]; left; auto].
  rewrite (truediv_rel d p U).
  destruct cm; [|discriminate].
  unfold _sha256sum, _size.
  destruct (FS.lookup fs p) as [x|] eqn:L; cbn [bind]; [discriminate|].
  intros [= <-]. right. auto.
Qed.




(** X3.  Decoding one entry without verification does not look at the
    disk and does not use the key of the entry: the file is built from
    the full path of the record and the source directory alone, with
    the checksum and size of the record.  It fails only when the full
    path does not lie at or below the source directory. *)
Theorem from_dict_unverified (fs : FS.t) (p sd : string) (m : meta) :
  (forall fs' p',
     snd (from_dict fs' [(p', m)] (Some sd) false)
     = snd (from_dict fs [(p, m)] (Some sd) false))
  /\ (forall obj,
        snd (from_dict fs [(p, m)] (Some sd) false) = Ok obj ->
        src_dir obj = Path.of_str sd
        /\ fullpath obj = Path.of_str (meta_fullpath m)
        /\ checksum obj = meta_sha256sum m
        /\ size obj = meta_size m)
  /\ (forall e,
        snd (from_dict fs [(p, m)] (Some sd) false) = Raise e ->
        under (Path.of_str sd) (Path.of_str (meta_fullpath m)) = false).
Proof.
  unfold from_dict. cbn [popitem nonempty snd option_map].
  split; [|split].
  - intros fs' p'. reflexivity.
  - intros obj.
    destruct (__init__ fs (Path.of_str (meta_fullpath m))
                (Some (Path.of_str sd)) false) as [f|e] eqn:E;
      cbn [bind]; [|discriminate].
    apply init_ok in E as (_ & S & F & _). intros [= <-].
    repeat split; assumption.
  - intros e.
    destruct (__init__ fs (Path.of_str (meta_fullpath m))
                (Some (Path.of_str sd)) false) as [f|x] eqn:E;
      cbn [bind]; [discriminate|].
    intros _. apply init_raise in E as [(U & _)|(_ & C & _)];
      [exact U | discriminate C].
Qed.

Lemma from_dict_unverified_witness :
  snd (from_dict [] [("anything", Cases.grib_meta_odd_size)]
         (Some "/data/B") false)
  = Ok (mk Scenario.root_b (Path.mk false ["data.grib"])
          (Some "c0ffee") (Some 999%Z))
  /\ size (mk Scenario.root_b (Path.mk false ["data.grib"])
             (Some "c0ffee") (Some 999%Z)) = Some 999%Z.
Proof.
  split; [reflexivity|].
  destruct (from_dict_unverified [] "anything" "/data/B"
              Cases.grib_meta_odd_size) as (_ & H & _).
  apply (H _ eq_refl).
Defined.

(** X4.  [__eq__] is reflexive and symmetric.  It is transitive among
    files that all have a checksum or all have none, but not in
    general: a file without checksum equals, by its path, two files of
    that path whose checksums differ. *)
Theorem eq_is_not_an_equivalence :
  (forall f, __eq__ f f = true)
  /\ (forall f g, __eq__ f g = __eq__ g f)
  /\ (forall f g h,
        truthy_str (checksum f) = truthy_str (checksum g) ->
        truthy_str (checksum g) = truthy_str (checksum h) ->
        __eq__ f g = true -> __eq__ g h = true -> __eq__ f h = true)
  /\ (exists f g h,
        __eq__ f g = true /\ __eq__ g h = true /\ __eq__ f h = false).
Proof.
  split; [|split; [|split]].
  - intros f. unfold __eq__.
    destruct (truthy_str (checksum f)); simpl.
    + now apply InputFileFacts.opt_str_eqb_eq.
    + apply PathFacts.eqb_refl.
  - intros f g. unfold __eq__.
    rewrite (orb_comm (negb (truthy_str (checksum f)))).
    now rewrite SetFacts.opt_str_eqb_sym, SetFacts.path_eqb_sym.
  - intros f g h T1 T2. unfold __eq__. rewrite <- T2, <- T1.
    destruct (truthy_str (checksum f)); simpl.
    + rewrite !InputFileFacts.opt_str_eqb_eq. congruence.
    + rewrite !PathFacts.eqb_eq. congruence.
  - exists Scenario.grib_b, Scenario.grib_b_pending, Cases.grib_b_other_sum.
    repeat split.
Qed.

Lemma eq_is_not_an_equivalence_witness :
  __eq__ Scenario.grib_a Scenario.grib_b = true
  /\ __eq__ Scenario.grib_b Scenario.grib_new = true
  /\ __eq__ Scenario.grib_a Scenario.grib_new = true.
Proof.
  destruct eq_is_not_an_equivalence as (_ & _ & T & _).
  split; [reflexivity|]. split; [reflexivity|].
  apply (T Scenario.grib_a Scenario.grib_b Scenario.grib_new);
    reflexivity.
Defined.

End InputFileMore.

(** ** ExperimentFiles: the rebase and the adding of files *)

Module RegistryMore.
Import ExperimentFiles Rebase RebaseFacts RegistryFacts.

Section WithHash.
Variable py_hash : InputFile.hashable -> Z.
Variable fs : FS.t.

Lemma rebase_no_roots self f v :
  src_dir self = [] -> _input_file_in_src_dir fs self f v = Ok f.
Proof. intros E. unfold _input_file_in_src_dir. now rewrite E. Qed.

Lemma has_match_of_find self f c :
  find (matches fs f) (candidates fs self f) = Some c ->
  has_match fs (src_dir self) f = true
  /\ In (snd c) (src_dir self)
  /\ from_glob fs (Path.name (InputFile.path f)) c
  /\ matches fs f c = true.
Proof.
  intros F. apply find_some in F as [I M].
  unfold candidates in I. apply in_flat_map in I as (root & Hr & I).
  apply in_map_iff in I as (p & <- & I).
  repeat split; try assumption.
  apply existsb_exists. exists root. split; [exact Hr|].
  apply existsb_exists. now exists p.
Qed.

Lemma find_of_has_match self f :
  has_match fs (src_dir self) f = true ->
  exists c, find (matches fs f) (candidates fs self f) = Some c.
Proof.
  intros M.
  destruct (find (matches fs f) (candidates fs self f)) as [c|] eqn:F;
    [now exists c|].
  apply existsb_exists in M as (root & Hr & M).
  apply existsb_exists in M as (p & Hp & M).
  assert (I : In (p, root) (candidates fs self f)).
  { apply in_flat_map. exists root. split; [exact Hr|].
    apply in_map_iff. now exists p. }
  apply (find_none _ _ F) in I. congruence.
Qed.


Lemma rebase_not_found self f v :
  src_dir self <> [] ->
  has_match fs (src_dir self) f = false ->
  _input_file_in_src_dir fs self f v
  = if v then Raise (ValueError
                       (not_found_msg (Path.name (InputFile.path f))))
    else Ok f.
Proof.
  intros Hne M. rewrite rebase_eq by exact Hne.
  unfold candidates. now rewrite (find_candidates_none fs f _ M).
Qed.

Lemma rebase_has_match self f v :
  src_dir self <> [] ->
  has_match fs (src_dir self) f = true ->
  exists g, _input_file_in_src_dir fs self f v = Ok g.
Proof.
  intros Hne M. rewrite rebase_eq by exact Hne.
  destruct (find (matches fs f) (candidates fs self f)) as [c|] eqn:F.
  - destruct (has_match_of_find _ _ _ F) as (_ & _ & G & _).
    destruct (candidate_checksum fs _ _ G) as (g & B & _).
    rewrite B. now exists g.
  - destruct (find_of_has_match self f M) as (c & F'). congruence.
Qed.




Lemma rebase_src_dir_only self1 self2 f v :
  src_dir self1 = src_dir self2 ->
  _input_file_in_src_dir fs self1 f v = _input_file_in_src_dir fs self2 f v.
Proof.
  intros E. unfold _input_file_in_src_dir, candidates. now rewrite E.
Qed.

Lemma same_refl g : PySet.same py_hash g g = true.
Proof.
  unfold PySet.same. rewrite Z.eqb_refl. simpl.
  unfold InputFile.__eq__.
  destruct (truthy_str (InputFile.checksum g)); simpl.
  - now apply InputFileFacts.opt_str_eqb_eq.
  - apply PathFacts.eqb_refl.
Qed.

Local Abbreviation covered := (Disk.covered py_hash).

Lemma add_covered g s : covered (PySet.add py_hash g s) g.
Proof.
  unfold Disk.covered, PySet.add.
  destruct (existsb (fun y => PySet.same py_hash y g) s) eqn:E; [exact E|].
  rewrite existsb_app. simpl. rewrite same_refl. apply orb_true_r.
Qed.

Lemma add_covered_mono x s g :
  covered s g -> covered (PySet.add py_hash x s) g.
Proof.
  unfold Disk.covered. intros H. apply existsb_exists in H as (y & I & S).
  apply existsb_exists. exists y. split; [|exact S].
  now apply SetFacts.add_keeps.
Qed.

Lemma add_noop g s : covered s g -> PySet.add py_hash g s = s.
Proof. unfold Disk.covered, PySet.add. now intros ->. Qed.

Lemma rebase_unverified_ok self f :
  exists g, _input_file_in_src_dir fs self f false = Ok g.
Proof.
  destruct (src_dir self) as [|r rs] eqn:S.
  - exists f. now apply rebase_no_roots.
  - assert (Hne : src_dir self <> []) by (rewrite S; discriminate).
    destruct (has_match fs (src_dir self) f) eqn:M.
    + now apply rebase_has_match.
    + exists f. now rewrite (rebase_not_found self f false Hne M).
Qed.

Lemma add_input_file_covered l : forall self v self' r g,
  covered (_files self) g ->
  add_input_file py_hash fs self l v = (self', r) ->
  covered (_files self') g.
Proof.
  induction l as [|a l IH]; intros self v self' r g C H;
    cbn [add_input_file] in H.
  - now injection H as <- _.
  - destruct (_input_file_in_src_dir fs self a v) as [b|e];
      [|now injection H as <- _].
    apply (IH _ _ _ _ g) in H; [exact H|]. cbn. now apply add_covered_mono.
Qed.

Lemma add_input_file_inv l : forall self v self' r,
  add_input_file py_hash fs self l v = (self', r) ->
  exp_id self' = exp_id self
  /\ src_dir self' = src_dir self
  /\ incl (_files self) (_files self')
  /\ (PySet.wf py_hash (_files self) -> PySet.wf py_hash (_files self'))
  /\ (forall g, In g (_files self') ->
        In g (_files self)
        \/ exists f, In f l /\ _input_file_in_src_dir fs self f v = Ok g)
  /\ (r = Ok tt ->
      forall f, In f l ->
        exists g, _input_file_in_src_dir fs self f v = Ok g
                  /\ covered (_files self') g)
  /\ (v = false -> r = Ok tt).
Proof.
  induction l as [|f l IH]; intros self v self' r H; cbn [add_input_file] in H.
  - injection H as <- <-. repeat split; auto using incl_refl.
    intros _ f [].
  - destruct (_input_file_in_src_dir fs self f v) as [g|e] eqn:R.
    + set (self1 := mk (exp_id self) (src_dir self)
                      (PySet.add py_hash g (_files self))) in H.
      destruct (IH _ _ _ _ H) as (E1 & E2 & I & W & O & C & T).
      assert (RS : forall x, _input_file_in_src_dir fs self1 x v
                             = _input_file_in_src_dir fs self x v)
        by (intros x; now apply rebase_src_dir_only).
      split; [exact E1|]. split; [exact E2|]. split.
      { intros x Hx. apply I. cbn. now apply SetFacts.add_keeps. }
      split.
      { intros Wf. apply W. cbn. now apply SetFacts.add_wf. }
      split.
      { intros x Hx. destruct (O x Hx) as [Hx'|(f' & If & Rf)].
        - cbn in Hx'. apply SetFacts.add_inv in Hx' as [->|Hx']; [|now left].
          right. exists f. split; [now left | exact R].
        - right. exists f'. split; [now right|]. now rewrite <- RS. }
      split; [|exact T].
      intros Hr f' [<-|If].
      * exists g. split; [exact R|].
        apply (add_input_file_covered l self1 v self' r g); [|exact H].
        apply add_covered.
      * destruct (C Hr f' If) as (g' & Rg & Cg).
        exists g'. split; [now rewrite <- RS | exact Cg].
    + injection H as <- <-. repeat split; auto using incl_refl.
      * discriminate.
      * intros ->. destruct (rebase_unverified_ok self f) as (g & Q).
        congruence.
Qed.


Lemma add_input_file_noop l : forall self v,
  (forall f, In f l ->
     exists g, _input_file_in_src_dir fs self f v = Ok g
               /\ covered (_files self) g) ->
  add_input_file py_hash fs self l v = (self, Ok tt).
Proof.
  induction l as [|f l IH]; intros self v H; cbn [add_input_file];
    [reflexivity|].
  destruct (H f (or_introl eq_refl)) as (g & R & C).
  rewrite R, (add_noop g _ C).
  replace (mk (exp_id self) (src_dir self) (_files self)) with self
    by now destruct self.
  apply IH. intros f' I. apply H. now right.
Qed.

(** X8.  Adding the same files again changes nothing: after
    [add_input_file] has returned, a second call with the same files
    returns and leaves the registry as it is. *)
Theorem add_input_file_idempotent (self : t) (l : list InputFile.t)
    (v : bool) (self' : t) :
  add_input_file py_hash fs self l v = (self', Ok tt) ->
  add_input_file py_hash fs self' l v = (self', Ok tt).
Proof.
  intros H.
  destruct (add_input_file_inv l self v self' (Ok tt) H)
    as (_ & E2 & _ & _ & _ & C & _).
  apply add_input_file_noop. intros f I.
  destruct (C eq_refl f I) as (g & R & Cg).
  exists g. split; [|exact Cg].
  rewrite <- R. now apply rebase_src_dir_only.
Qed.

(** X9.  [add_file] is [add_input_file] applied to the files that
    [InputFile(path)] builds below [/]: when every path can be built,
    the two leave the same registry and the same result. *)
Theorem add_file_is_add_input_file (self : t) (paths : list string)
    (files : list InputFile.t) (cm : bool) :
  Forall2 (fun s f => InputFile.__init__ fs (Path.of_str s) None cm = Ok f)
          paths files ->
  add_file py_hash fs self paths cm
  = add_input_file py_hash fs self files cm.
Proof.
  intros H. revert self.
  induction H as [|s f paths files I _ IH]; intros self; [reflexivity|].
  cbn [add_file add_input_file]. rewrite I. cbn [bind].
  destruct (_input_file_in_src_dir fs self f cm); [apply IH | reflexivity].
Qed.

Lemma filter_wf (P : InputFile.t -> bool) s :
  PySet.wf py_hash s -> PySet.wf py_hash (filter P s).
Proof.
  apply SetFacts.wf_incl. intros x Hx. now apply filter_In in Hx as [Hx _].
Qed.

Lemma exp_and_ifsdata_partition_aux self f :
  PySet.wf py_hash (_files self) ->
  In f (_files self) /\ in_ifsdata f = true ->
  In f (ifsdata_files py_hash self).
Proof.
  intros W [I D]. unfold ifsdata_files.
  apply SetFacts.of_list_wf; [now apply filter_wf|]. now apply filter_In.
Qed.

(** X10.  The two derived subsets split the files: on a set, a file is
    an experiment file exactly when it is registered and its full path
    does not hold [/ifsdata/], and an ifsdata file exactly when it is
    registered and its full path holds it. *)
Theorem exp_and_ifsdata_partition (self : t) (f : InputFile.t) :
  PySet.wf py_hash (_files self) ->
  (In f (exp_files py_hash self)
   <-> In f (_files self) /\ in_ifsdata f = false)
  /\ (In f (ifsdata_files py_hash self)
      <-> In f (_files self) /\ in_ifsdata f = true).
Proof.
  intros W. unfold exp_files, ifsdata_files. split; split.
  - intros I. apply SetFacts.of_list_In, filter_In in I as [I D].
    now apply negb_true_iff in D.
  - intros [I D]. apply SetFacts.of_list_wf; [now apply filter_wf|].
    apply filter_In. now rewrite D.
  - intros I. now apply SetFacts.of_list_In, filter_In in I.
  - intros [I D]. apply SetFacts.of_list_wf; [now apply filter_wf|].
    now apply filter_In.
Qed.

Lemma rebase_all_no_roots self old new :
  src_dir self = [] ->
  rebase_all py_hash fs self old new
  = Ok (fold_left (fun s x => PySet.add py_hash x s) old new).
Proof.
  intros E. revert new. induction old as [|f old IH]; intros new;
    cbn [rebase_all fold_left]; [reflexivity|].
  rewrite (rebase_no_roots self f true E). cbn [bind]. apply IH.
Qed.

(** X11.  [update_srcdir] to an empty list of source directories does
    not raise and keeps every file: with [update_files], with or
    without the ifsdata files, the registry afterwards has no source
    directory and, on a set, the same files as before. *)
Theorem update_srcdir_to_no_roots (self : t) (with_ifsdata : bool) :
  PySet.wf py_hash (_files self) ->
  exists self',
    update_srcdir py_hash fs self [] true with_ifsdata = (self', Ok tt)
    /\ exp_id self' = exp_id self
    /\ src_dir self' = []
    /\ (forall f, In f (_files self') <-> In f (_files self)).
Proof.
  intros W. unfold update_srcdir, as_tuple.
  set (self1 := mk (exp_id self) [] (_files self)).
  destruct with_ifsdata.
  - rewrite (rebase_all_no_roots self1 _ _ eq_refl).
    eexists. split; [reflexivity|]. repeat split; cbn [_files files self1].
    + apply SetFacts.of_list_In.
    + now apply SetFacts.of_list_wf.
  - rewrite (rebase_all_no_roots self1 _ _ eq_refl).
    eexists. split; [reflexivity|]. repeat split; cbn [_files].
    + intros I. apply SetFacts.fold_add_In in I as [I|I];
        apply SetFacts.of_list_In, filter_In in I; tauto.
    + intros I. destruct (in_ifsdata f) eqn:D.
      * apply SetFacts.fold_add_keeps.
        apply (exp_and_ifsdata_partition_aux self f W). auto.
      * apply SetFacts.fold_add_wf.
        { apply SetFacts.wf_incl with (s := _files self); [|exact W].
          intros x Hx. apply in_app_or in Hx as [Hx|Hx];
            apply SetFacts.of_list_In, filter_In in Hx; tauto. }
        apply SetFacts.of_list_wf; [now apply filter_wf|].
        apply filter_In. now rewrite D.
Qed.




End WithHash.

Import Scenario.



Lemma add_input_file_idempotent_witness :
  add_input_file toy_hash disk reg_ab [grib_b; notes] true
  = (mk "exp" [root_a; root_b] [grib_a; notes], Ok tt)
  /\ add_input_file toy_hash disk (mk "exp" [root_a; root_b] [grib_a; notes])
       [grib_b; notes] true
     = (mk "exp" [root_a; root_b] [grib_a; notes], Ok tt).
Proof.
  assert (E : add_input_file toy_hash disk reg_ab [grib_b; notes] true
              = (mk "exp" [root_a; root_b] [grib_a; notes], Ok tt))
    by reflexivity.
  split; [exact E|].
  apply (add_input_file_idempotent toy_hash disk reg_ab _ _ _ E).
Defined.

Lemma add_file_is_add_input_file_witness :
  InputFile.__init__ disk (Path.of_str "/data/B/data.grib") None true
  = Ok grib_b_unrooted
  /\ add_file toy_hash disk reg_ab ["/data/B/data.grib"] true
     = add_input_file toy_hash disk reg_ab [grib_b_unrooted] true.
Proof.
  split; [reflexivity|].
  apply (add_file_is_add_input_file toy_hash disk reg_ab
           ["/data/B/data.grib"] [grib_b_unrooted] true).
  repeat constructor.
Defined.

Lemma exp_and_ifsdata_partition_witness :
  PySet.wf toy_hash (_files reg_b)
  /\ In clim (ifsdata_files toy_hash reg_b)
  /\ In grib_b (exp_files toy_hash reg_b).
Proof.
  split; [exact reg_b_wf|]. split.
  - apply (exp_and_ifsdata_partition toy_hash reg_b clim reg_b_wf).
    split; [right; left; reflexivity | reflexivity].
  - apply (exp_and_ifsdata_partition toy_hash reg_b grib_b reg_b_wf).
    split; [left; reflexivity | reflexivity].
Defined.

Lemma update_srcdir_to_no_roots_witness :
  PySet.wf toy_hash (_files reg_b)
  /\ exists self',
       update_srcdir toy_hash disk reg_b [] true false = (self', Ok tt)
       /\ src_dir self' = []
       /\ In clim (_files self') /\ In grib_b (_files self').
Proof.
  split; [exact reg_b_wf|].
  destruct (update_srcdir_to_no_roots toy_hash disk reg_b false reg_b_wf)
    as (self' & E & _ & S & M).
  exists self'. split; [exact E|]. split; [exact S|].
  split; apply M; simpl; auto.
Defined.


End RegistryMore.

(** ** The manifest: encoding, decoding with verification *)

Module ManifestMore.
Import ExperimentFiles DictFacts Manifest ManifestFacts.

Section WithHash.
Variable py_hash : InputFile.hashable -> Z.
Variable fs : FS.t.

(** X13.  The manifest [to_dict] builds has the experiment id as its
    only key; below it no source directory and, below a source
    directory, no relative path occurs twice; and every record is the
    record of a registered file, under its source directory and its
    relative path. *)
Theorem to_dict_sound (self : t) :
  exists data,
    to_dict self = [(exp_id self, data)]
    /\ nodup2 data
    /\ forall sd p m,
         In (sd, (p, m)) (entries data) ->
         exists f,
           In f (_files self)
           /\ sd = Path.str (InputFile.src_dir f)
           /\ p = Path.str (InputFile.path f)
           /\ m = meta_of f.
Proof.
  exists (fold_left step (files self) []).
  assert (ND : nodup2 (fold_left step (files self) []))
    by apply fold_nodup2, nodup2_nil.
  split; [apply to_dict_fold|]. split; [exact ND|].
  intros sd p m I. apply (entries_lookup _ _ _ _ ND) in I.
  apply fold_sound in I as [I|(f & If & E)]; [discriminate I|].
  exists f. unfold entry_of in E. injection E as <- <- <-. auto.
Qed.

Lemma decode_files_inv v es : forall acc res,
  decode_files py_hash fs v es acc = Ok res ->
  (PySet.wf py_hash acc -> PySet.wf py_hash res)
  /\ forall g, In g res ->
       In g acc
       \/ exists sd p m,
            In (sd, (p, m)) es
            /\ snd (InputFile.from_dict fs [(p, m)] (Some sd) v) = Ok g.
Proof.
  induction es as [|[sd [p m]] es IH]; intros acc res H;
    cbn [decode_files] in H.
  - injection H as <-. split; auto.
  - destruct (snd (InputFile.from_dict fs [(p, m)] (Some sd) v))
      as [obj|e] eqn:E; cbn [bind] in H; [|discriminate].
    destruct (IH _ _ H) as [W O]. split.
    + intros Wa. apply W. now apply SetFacts.add_wf.
    + intros g I. destruct (O g I) as [J|(sd' & p' & m' & J & R)].
      * apply SetFacts.add_inv in J as [->|J]; [|now left].
        right. exists sd, p, m. split; [now left | exact E].
      * right. exists sd', p', m'. split; [now right | exact R].
Qed.

Lemma file_from_dict_ok v p m sd obj :
  snd (InputFile.from_dict fs [(p, m)] (Some sd) v) = Ok obj ->
  InputFile.src_dir obj = Path.of_str sd
  /\ InputFile.fullpath obj = Path.of_str (InputFile.meta_fullpath m)
  /\ InputFile.checksum obj = InputFile.meta_sha256sum m
  /\ (v = true -> Disk.on_disk fs obj).
Proof.
  unfold InputFile.from_dict. cbn [popitem nonempty snd option_map].
  destruct (InputFile.__init__ fs (Path.of_str (InputFile.meta_fullpath m))
              (Some (Path.of_str sd)) v) as [f|e] eqn:E;
    cbn [bind]; [|discriminate].
  apply InputFileMore.init_ok in E as (_ & S & F & _ & D).
  destruct v.
  - destruct (InputFile.meta_sha256sum m) as [c|]; [|discriminate].
    destruct (opt_str_eqb (Some c) (InputFile.checksum f)) eqn:Q;
      cbn [negb]; [|discriminate].
    intros [= <-]. apply InputFileFacts.opt_str_eqb_eq in Q. auto.
  - intros [= <-]. repeat split; try assumption. discriminate.
Qed.

(** X14.  What [ExperimentFiles.from_dict] returns, for any manifest.
    The experiment id is the single key; the source directories are the
    keys below it, in their order; the files form a set; and every file
    comes from a record of the manifest: it lies below the source
    directory of its record, has the full path and the checksum of the
    record and, with verification, is on disk with that checksum. *)
Theorem from_dict_sound (data : manifest) (v : bool) (data' : manifest)
    (self' : t) :
  from_dict py_hash fs data v = (data', Ok self') ->
  exists exp src_dir_files,
    data = [(exp, src_dir_files)]
    /\ exp_id self' = exp
    /\ src_dir self' = map Path.of_str (keys src_dir_files)
    /\ PySet.wf py_hash (_files self')
    /\ forall g, In g (_files self') ->
         In (InputFile.src_dir g) (src_dir self')
         /\ (v = true -> Disk.on_disk fs g)
         /\ exists sd p m,
              In (sd, (p, m)) (entries src_dir_files)
              /\ InputFile.src_dir g = Path.of_str sd
              /\ InputFile.fullpath g
                 = Path.of_str (InputFile.meta_fullpath m)
              /\ InputFile.checksum g = InputFile.meta_sha256sum m.
Proof.
  unfold from_dict.
  destruct (popitem data) as [[[exp sdf] rest]|] eqn:P; [|discriminate].
  destruct (DecodeFacts.single_or_not _ _ _ P) as [_ S].
  destruct rest as [|x rest]; simpl nonempty; cbv iota; [|discriminate].
  destruct (decode_files py_hash fs v (entries sdf) []) as [res|e] eqn:D;
    cbn [bind]; [|discriminate].
  intros [= _ <-]. exists exp, sdf.
  split; [now apply S|]. split; [reflexivity|]. split; [reflexivity|].
  destruct (decode_files_inv v _ _ _ D) as [W O].
  split; [apply W; intros ? ? []|].
  intros g I. cbn [_files] in I.
  destruct (O g I) as [[]|(sd & p & m & J & R)].
  destruct (file_from_dict_ok v p m sd g R) as (Sg & Fg & Cg & Dg).
  split; [|split; [exact Dg|]].
  - cbn [src_dir __init__ as_tuple]. rewrite Sg. apply in_map.
    unfold entries in J. apply in_flat_map in J as ([sd' inner] & J1 & J2).
    apply in_map_iff in J2 as (pf & [= <- _] & _).
    change sd' with (fst (sd', inner)). now apply in_map.
  - exists sd, p, m. auto.
Qed.




End WithHash.

Import Scenario.

Lemma from_dict_sound_witness :
  from_dict toy_hash disk (to_dict reg_b) true = ([], Ok reg_b)
  /\ PySet.wf toy_hash (_files reg_b)
  /\ Disk.on_disk disk clim.
Proof.
  assert (E : from_dict toy_hash disk (to_dict reg_b) true = ([], Ok reg_b))
    by reflexivity.
  destruct (from_dict_sound toy_hash disk _ _ _ _ E)
    as (exp & sdf & _ & _ & _ & W & H).
  split; [exact E|]. split; [exact W|].
  destruct (H clim (or_intror (or_introl eq_refl))) as (_ & D & _).
  exact (D eq_refl).
Defined.



End ManifestMore.

(** ** Path rewrite rules: what a match is and what it replaces *)

Module RuleMore.
Import Re SpecialRelativePath.













Import Shape.

Lemma length_append (a b : string) :
  String.length (a ++ b) = String.length a + String.length b.
Proof. induction a as [|x a IH]; simpl; [reflexivity | now rewrite IH]. Qed.




Lemma strip_prefix_app l s : strip_prefix l (l ++ s) = Some s.
Proof.
  induction l as [|a l IH]; simpl; [reflexivity|].
  now rewrite Ascii.eqb_refl.
Qed.

























End RuleMore.

(** ** ExperimentFiles: tarballs *)

Module TarballFacts.
Import Tarball PathSuffix.

Lemma pget_psetitem_same {V} k (v : V) d : pget k (psetitem k v d) = Some v.
Proof.
  induction d as [|[k' v'] d IH]; simpl.
  - now rewrite PathFacts.eqb_refl.
  - destruct (Path.eqb k k') eqn:E; simpl.
    + now rewrite PathFacts.eqb_refl.
    + now rewrite E.
Qed.

Lemma pget_psetitem_other {V} k k' (v : V) d :
  k' <> k -> pget k' (psetitem k v d) = pget k' d.
Proof.
  intros N.
  assert (N' : Path.eqb k' k = false).
  { destruct (Path.eqb k' k) eqn:E; [|reflexivity].
    now apply PathFacts.eqb_eq in E. }
  induction d as [|[k0 v0] d IH]; simpl.
  - now rewrite N'.
  - destruct (Path.eqb k k0) eqn:E; simpl.
    + apply PathFacts.eqb_eq in E. subst k0. now rewrite N'.
    + now rewrite IH.
Qed.

Lemma pkeys_psetitem {V} k (v : V) d x :
  In x (map fst (psetitem k v d)) -> x = k \/ In x (map fst d).
Proof.
  induction d as [|[k0 v0] d IH]; simpl.
  - intros [H|[]]; auto.
  - destruct (Path.eqb k k0); simpl; intros [H|H]; auto.
    apply IH in H as [H|H]; auto.
Qed.

Lemma pnodup_psetitem {V} k (v : V) d :
  NoDup (map fst d) -> NoDup (map fst (psetitem k v d)).
Proof.
  induction d as [|[k0 v0] d IH]; simpl; intros N.
  - constructor; [easy | constructor].
  - inversion N as [|? ? Hk Hd]; subst.
    destruct (Path.eqb k k0) eqn:E; simpl.
    + apply PathFacts.eqb_eq in E. subst k0. now constructor.
    + constructor; [|now apply IH].
      intros I. apply pkeys_psetitem in I as [->|I]; [|easy].
      now rewrite PathFacts.eqb_refl in E.
Qed.

Lemma pget_In {V} k (v : V) d : pget k d = Some v -> In (k, v) d.
Proof.
  induction d as [|[k' v'] d IH]; simpl; [discriminate|].
  destruct (Path.eqb k k') eqn:E; [|auto].
  apply PathFacts.eqb_eq in E. intros [= ->]. left. now subst.
Qed.

Lemma pIn_get {V} k (v : V) d :
  NoDup (map fst d) -> In (k, v) d -> pget k d = Some v.
Proof.
  induction d as [|[k' v'] d IH]; simpl; [easy|].
  intros N. inversion N as [|? ? Hk Hd]; subst.
  intros [[= -> ->]|I].
  - now rewrite PathFacts.eqb_refl.
  - destruct (Path.eqb k k') eqn:E; [|auto].
    apply PathFacts.eqb_eq in E. subst k'. elim Hk.
    change k with (fst (k, v)). now apply in_map.
Qed.

Lemma group_fold files d0 :
  NoDup (map fst d0) -> NoDup (map fst (fold_left gstep files d0)).
Proof.
  revert d0. induction files as [|f files IH]; simpl; intros d0 N; [exact N|].
  apply IH. now apply pnodup_psetitem.
Qed.

Lemma group_lookup files : forall d0 k,
  pget k (fold_left gstep files d0)
  = match pget k d0, paths_below k files with
    | None, [] => None
    | None, fl => Some fl
    | Some old, fl => Some (old ++ fl)
    end.
Proof.
  induction files as [|f files IH]; intros d0 k; cbn [fold_left].
  - unfold paths_below. simpl. destruct (pget k d0); [|reflexivity].
    now rewrite app_nil_r.
  - rewrite IH. unfold gstep, paths_below. cbn [filter].
    destruct (Path.eqb (InputFile.src_dir f) k) eqn:E.
    + apply PathFacts.eqb_eq in E. subst k. rewrite pget_psetitem_same.
      cbn [map]. destruct (pget (InputFile.src_dir f) d0); simpl.
      * now rewrite <- app_assoc.
      * reflexivity.
    + rewrite pget_psetitem_other.
      * reflexivity.
      * intros ->. now rewrite PathFacts.eqb_refl in E.
Qed.

Lemma group_keys files k fl :
  In (k, fl) (group_by_src_dir files) ->
  fl <> [] /\ fl = paths_below k files.
Proof.
  intros I. apply pIn_get in I; [|apply group_fold; constructor].
  unfold group_by_src_dir in I. rewrite group_lookup in I. simpl in I.
  destruct (paths_below k files) eqn:E; [discriminate|].
  injection I as <-. split; [discriminate | reflexivity].
Qed.

Lemma group_has files k :
  paths_below k files <> [] ->
  In (k, paths_below k files) (group_by_src_dir files).
Proof.
  intros N. apply pget_In. unfold group_by_src_dir.
  rewrite group_lookup. simpl.
  destruct (paths_below k files); [now elim N | reflexivity].
Qed.

Lemma paths_below_src files k :
  paths_below k files <> [] ->
  exists f, In f files /\ InputFile.src_dir f = k.
Proof.
  unfold paths_below.
  destruct (filter _ files) as [|f l] eqn:E; [now intros []|].
  intros _. exists f.
  assert (I : In f (filter (fun f => Path.eqb (InputFile.src_dir f) k) files))
    by (rewrite E; now left).
  apply filter_In in I as [I Q]. split; [exact I|].
  now apply PathFacts.eqb_eq.
Qed.

Lemma of_str_seg n : Path.seg_ok n = true -> Path.of_str n = Path.mk false [n].
Proof.
  intros H.
  rewrite <- (PathFacts.of_str_str (Path.mk false [n])) at 1.
  - reflexivity.
  - unfold Path.wf. simpl. now rewrite H.
Qed.

Lemma seg_ok_nonempty n : Path.seg_ok n = true -> String.eqb n "" = false.
Proof.
  unfold Path.seg_ok, Path.keep_segment. destruct (String.eqb n ""); easy.
Qed.

Lemma last_in (l : list string) : last l "" <> "" -> In (last l "") l.
Proof.
  induction l as [|a l IH]; [now intros []|].
  destruct l as [|b l]; [now left|].
  intros H. right. now apply IH.
Qed.

Lemma name_or_other_seg d :
  Path.wf d -> Path.seg_ok (name_or_other d) = true.
Proof.
  intros W. unfold name_or_other.
  destruct (String.eqb (Path.name d) "") eqn:E; [reflexivity|].
  apply String.eqb_neq in E. unfold Path.name in *.
  apply last_in in E. unfold Path.wf in W.
  rewrite forallb_forall in W. now apply W.
Qed.

(** The name [with_suffix] gives to a final segment. *)
Lemma with_suffix_seg out n :
  Path.seg_ok n = true ->
  with_suffix (out // Path.mk false [n]) ".tar.gz"
  = Ok (Path.mk (Path.absolute out)
          (Path.parts out ++
           [((if String.eqb (suffix n) "" then n
              else substring 0 (String.length n - String.length (suffix n)) n)
             ++ ".tar.gz")%string])).
Proof.
  intros H. unfold with_suffix, Path.truediv. cbn [Path.absolute Path.parts].
  change (Path.has_slash ".tar.gz") with false.
  change ((negb (String.eqb ".tar.gz" "") && negb (String.prefix "." ".tar.gz"))
          || String.eqb ".tar.gz" ".") with false.
  cbv iota. unfold Path.name. cbn [Path.parts].
  rewrite last_last, (seg_ok_nonempty _ H), removelast_last.
  destruct (String.eqb (suffix n) ""); reflexivity.
Qed.

Lemma create_tarball_ok files out d :
  Path.wf d ->
  _create_tarball files (out // Path.of_str (name_or_other d)) (Some d)
  = Ok (render out (d, files)).
Proof.
  intros W. unfold _create_tarball.
  rewrite (of_str_seg _ (name_or_other_seg _ W)).
  rewrite (with_suffix_seg _ _ (name_or_other_seg _ W)).
  reflexivity.
Qed.

Lemma create_all_ok out groups : forall done,
  (forall g, In g groups -> Path.wf (fst g)) ->
  create_all out groups done = (done ++ map (render out) groups, Ok tt).
Proof.
  induction groups as [|[d fl] groups IH]; intros done W; cbn [create_all map].
  - now rewrite app_nil_r.
  - rewrite (create_tarball_ok fl out d (W (d, fl) (or_introl eq_refl))).
    rewrite IH by (intros g I; apply W; now right).
    now rewrite <- app_assoc.
Qed.

Section WithHash.
Variable py_hash : InputFile.hashable -> Z.

Lemma exp_groups_wf self :
  (forall f, In f (ExperimentFiles.exp_files py_hash self) ->
             Path.wf (InputFile.src_dir f)) ->
  forall g,
    In g (group_by_src_dir (ExperimentFiles.exp_files py_hash self)) ->
    Path.wf (fst g).
Proof.
  intros W [k fl] I. apply group_keys in I as [N E]. subst fl.
  apply paths_below_src in N as (f & I & <-). now apply W.
Qed.

(** X20.  [to_tarball] raises no error of its own and runs one [tar]
    command per source directory of the experiment files, each
    directory once: the command writes the tarball named after the
    directory, changes into the directory and lists the paths of
    exactly the experiment files registered below it, in their order.
    What [tar] does with the command is not part of the model. *)
Theorem to_tarball_plan (self : ExperimentFiles.t) (output_dir : Path.t) :
  (forall f, In f (ExperimentFiles.exp_files py_hash self) ->
             Path.wf (InputFile.src_dir f)) ->
  exists plan,
    to_tarball py_hash self output_dir false
    = (map (render output_dir) plan, Ok tt) /\
    NoDup (map fst plan) /\
    forall d fl,
      In (d, fl) plan <->
      fl <> [] /\
      fl = paths_below d (ExperimentFiles.exp_files py_hash self).
Proof.
  intros W.
  exists (group_by_src_dir (ExperimentFiles.exp_files py_hash self)).
  split; [|split].
  - unfold to_tarball.
    now rewrite (create_all_ok _ _ [] (exp_groups_wf self W)).
  - apply group_fold. constructor.
  - intros d fl. split.
    + apply group_keys.
    + intros [N ->]. now apply group_has.
Qed.

(** X21.  With [with_ifsdata], [to_tarball] runs the same commands and
    then one more, which writes [ifsdata.tar.gz], changes into the
    source directory of the first ifsdata file and lists the paths of
    all ifsdata files, whatever directory they are registered below. *)
Theorem to_tarball_ifsdata (self : ExperimentFiles.t) (output_dir : Path.t)
    (first : InputFile.t) (more : list InputFile.t) :
  (forall f, In f (ExperimentFiles.exp_files py_hash self) ->
             Path.wf (InputFile.src_dir f)) ->
  ExperimentFiles.ifsdata_files py_hash self = first :: more ->
  to_tarball py_hash self output_dir true
  = (fst (to_tarball py_hash self output_dir false) ++
     [["tar"; "cvzhf";
       Path.str (output_dir // Path.of_str "ifsdata.tar.gz");
       "-C"; Path.str (InputFile.src_dir first)] ++
      map (fun f => Path.str (InputFile.path f)) (first :: more)],
     Ok tt).
Proof.
  intros W E. unfold to_tarball.
  rewrite (create_all_ok _ _ [] (exp_groups_wf self W)).
  rewrite E. cbn [fst]. unfold _create_tarball.
  change (Path.of_str "ifsdata") with (Path.mk false ["ifsdata"]).
  rewrite (with_suffix_seg output_dir "ifsdata" eq_refl).
  reflexivity.
Qed.

End WithHash.

Lemma to_tarball_plan_witness :
  exists plan,
    to_tarball Scenario.toy_hash Scenario.reg_b_notes (Path.of_str "/out")
      false
    = (map (render (Path.of_str "/out")) plan, Ok tt) /\
    NoDup (map fst plan) /\
    forall d fl,
      In (d, fl) plan <->
      fl <> [] /\
      fl = paths_below d
             (ExperimentFiles.exp_files Scenario.toy_hash
                Scenario.reg_b_notes).
Proof.
  apply (to_tarball_plan Scenario.toy_hash Scenario.reg_b_notes
           (Path.of_str "/out")).
  intros f I. vm_compute in I.
  destruct I as [<-|[<-|[]]]; reflexivity.
Defined.

Lemma to_tarball_ifsdata_witness :
  to_tarball Scenario.toy_hash Scenario.reg_b_notes (Path.of_str "/out") true
  = (fst (to_tarball Scenario.toy_hash Scenario.reg_b_notes
            (Path.of_str "/out") false) ++
     [["tar"; "cvzhf";
       Path.str (Path.of_str "/out" // Path.of_str "ifsdata.tar.gz");
       "-C"; Path.str (InputFile.src_dir Scenario.clim)] ++
      map (fun f => Path.str (InputFile.path f)) [Scenario.clim]],
     Ok tt).
Proof.
  apply (to_tarball_ifsdata Scenario.toy_hash Scenario.reg_b_notes
           (Path.of_str "/out") Scenario.clim []).
  - intros f I. vm_compute in I.
    destruct I as [<-|[<-|[]]]; reflexivity.
  - reflexivity.
Defined.

Lemma length_substring s : forall i k,
  String.length (substring i k s) = Nat.min k (String.length s - i).
Proof.
  induction s as [|c s IH]; intros [|i] [|k]; simpl; try reflexivity.
  - now rewrite IH, Nat.sub_0_r.
  - now rewrite IH.
  - now rewrite IH.
Qed.

Lemma suffix_cases n :
  suffix n = "" \/
  exists i, 0 < i /\ i < String.length n - 1 /\
            suffix n = substring i (String.length n - i) n.
Proof.
  unfold suffix. destruct (rfind_dot n 0 None) as [i|]; [|now left].
  destruct (Nat.ltb 0 i && Nat.ltb i (String.length n - 1)) eqn:E;
    [|now left].
  apply andb_prop in E as [A B].
  apply Nat.ltb_lt in A. apply Nat.ltb_lt in B.
  right. now exists i.
Qed.

Lemma stem_shorter n :
  suffix n <> "" ->
  String.length (substring 0 (String.length n - String.length (suffix n)) n)
  < String.length n.
Proof.
  intros N. destruct (suffix_cases n) as [E|(i & A & B & E)]; [easy|].
  rewrite E, !length_substring. lia.
Qed.

(** X22.  The tarball [to_tarball] writes for a source directory has the
    name [from_tarball] looks for exactly when the directory has a name
    and the name has no suffix; for [run.v2] the first writes
    [run.tar.gz] and the second looks for [run.v2.tar.gz], for the root
    directory the first writes [other.tar.gz] and the second looks for
    [.tar.gz]. *)
Theorem written_name_is_searched_name (output_dir src_dir : Path.t) :
  Path.wf src_dir ->
  exists file,
    with_suffix (output_dir // Path.of_str (name_or_other src_dir)) ".tar.gz"
    = Ok file /\
    (Path.name file = tarball_name src_dir <->
     Path.name src_dir <> "" /\ suffix (Path.name src_dir) = "").
Proof.
  intros W. eexists. split.
  - rewrite (of_str_seg _ (name_or_other_seg _ W)).
    apply (with_suffix_seg _ _ (name_or_other_seg _ W)).
  - unfold Path.name at 1. cbn [Path.parts]. rewrite last_last.
    unfold tarball_name, name_or_other.
    destruct (String.eqb (Path.name src_dir) "") eqn:E.
    + apply String.eqb_eq in E. rewrite E. split.
      * discriminate.
      * now intros [N _].
    + apply String.eqb_neq in E.
      destruct (String.eqb (suffix (Path.name src_dir)) "") eqn:S.
      * apply String.eqb_eq in S. tauto.
      * apply String.eqb_neq in S. split.
        -- intros Q. apply (f_equal String.length) in Q.
           rewrite !RuleMore.length_append in Q.
           pose proof (stem_shorter _ S). lia.
        -- now intros [_ Z].
Qed.

Lemma written_name_is_searched_name_witness :
  exists file,
    with_suffix (Path.of_str "/out" // Path.of_str
                   (name_or_other (Path.of_str "/data/run.v2"))) ".tar.gz"
    = Ok file /\
    (Path.name file = tarball_name (Path.of_str "/data/run.v2") <->
     Path.name (Path.of_str "/data/run.v2") <> "" /\
     suffix (Path.name (Path.of_str "/data/run.v2")) = "").
Proof.
  apply (written_name_is_searched_name (Path.of_str "/out")
           (Path.of_str "/data/run.v2")).
  reflexivity.
Defined.

Lemma add_str_in s l x : In x (add_str s l) <-> x = s \/ In x l.
Proof.
  unfold add_str. destruct (existsb (String.eqb s) l) eqn:E.
  - split; [now right|]. intros [->|I]; [|exact I].
    apply existsb_exists in E as (y & I & Q).
    apply String.eqb_eq in Q. now subst y.
  - rewrite in_app_iff. simpl. split.
    + intros [I|[<-|[]]]; auto.
    + intros [->|I]; auto.
Qed.

(** X23.  The search of [from_tarball] either raises the [ValueError]
    for the first experiment file no input directory has a tarball for,
    or gives the set of tarballs with, added to it, the first candidate
    of every file and nothing else. *)
Theorem find_tarballs_cases (fs : FS.t) (input_dir : list Path.t)
    (exp_files : list InputFile.t) (tarballs : list string) :
  match find_tarballs fs input_dir exp_files tarballs with
  | Ok res =>
      forall s,
        In s res <->
        In s tarballs \/
        exists f, In f exp_files /\
                  hd_error (tarball_candidates fs input_dir f) = Some s
  | Raise e =>
      exists pre f post,
        exp_files = pre ++ f :: post /\
        (forall g, In g pre -> tarball_candidates fs input_dir g <> []) /\
        tarball_candidates fs input_dir f = [] /\
        e = ValueError
              (archive_missing_msg (tarball_name (InputFile.src_dir f)))
  end.
Proof.
  revert tarballs.
  induction exp_files as [|f rest IH]; intros tarballs; cbn [find_tarballs].
  - intros s. split; [now left|]. now intros [I|(f & [] & _)].
  - destruct (tarball_candidates fs input_dir f) as [|c cs] eqn:E.
    + exists [], f, rest. repeat split; [now intros g []|exact E].
    + specialize (IH (add_str c tarballs)).
      destruct (find_tarballs fs input_dir rest (add_str c tarballs))
        as [res|e].
      * intros s. rewrite IH, add_str_in. split.
        -- intros [[->|I]|(g & I & H)]; auto.
           ++ right. exists f. split; [now left|]. now rewrite E.
           ++ right. exists g. split; [now right | exact H].
        -- intros [I|(g & [<-|I] & H)]; auto.
           ++ rewrite E in H. injection H as <-. auto.
           ++ right. now exists g.
      * destruct IH as (pre & g & post & Q & A & B & C).
        exists (f :: pre), g, post. subst rest. repeat split; auto.
        intros h [<-|I]; [now rewrite E | now apply A].
Qed.

End TarballFacts.

(** ** Jobs, launchers, environment handlers *)

Module LaunchFacts.
Import Job.

Lemma get_not_key {V} k (d : Py.dict V) :
  ~ In k (Py.keys d) -> Py.get k d = None.
Proof.
  induction d as [|[k' v'] d IH]; simpl; [reflexivity|].
  intros N. destruct (String.eqb k k') eqn:E.
  - apply String.eqb_eq in E. subst k'. elim N. now left.
  - apply IH. intros I. apply N. now right.
Qed.

Lemma get_update {V} (other : Py.dict V) : forall d k,
  NoDup (Py.keys other) ->
  Py.get k (Py.update d other)
  = match Py.get k other with
    | Some v => Some v
    | None => Py.get k d
    end.
Proof.
  unfold Py.update.
  induction other as [|[k0 v0] other IH]; intros d k N; [reflexivity|].
  simpl in N. inversion N as [|? ? N0 N1]; subst.
  cbn [fold_left fst snd]. rewrite IH by exact N1. simpl.
  destruct (String.eqb k k0) eqn:E.
  - apply String.eqb_eq in E. subst k0.
    rewrite (get_not_key _ _ N0). apply DictFacts.get_setitem_same.
  - destruct (Py.get k other); [reflexivity|].
    apply DictFacts.get_setitem_other. intros ->.
    now rewrite String.eqb_refl in E.
Qed.

(** X24.  [Job(job, **kwargs)] holds the entries of [job] with those of
    [kwargs] laid over them, and none of the attributes assigned to
    [job]. *)
Theorem job_init_lookup (job : Job.t) (kwargs : Py.dict value)
    (key : string) (default : value) :
  NoDup (Py.keys (data job)) ->
  NoDup (Py.keys kwargs) ->
  Job.get (Job.__init__ (Some job) kwargs) key default
  = match Py.get key kwargs with
    | Some v => v
    | None => Job.get job key default
    end /\
  attrs (Job.__init__ (Some job) kwargs) = [].
Proof.
  intros Nj Nk.
  split; [|unfold Job.__init__; destruct (Py.nonempty _); reflexivity].
  unfold Job.__init__, Job.get.
  destruct (Py.nonempty (data job)) eqn:E; cbn [data].
  - rewrite (get_update kwargs) by exact Nk.
    destruct (Py.get key kwargs); [reflexivity|].
    rewrite get_update by exact Nj.
    now destruct (Py.get key (data job)).
  - destruct (data job); [|discriminate].
    rewrite get_update by exact Nk.
    now destruct (Py.get key kwargs).
Qed.

Lemma job_init_lookup_witness :
  Job.get
    (Job.__init__
       (Some (Job.mk [("tasks", VInt 1); ("nodes", VInt 2)]
                     [("distribute_local", VDist DISTRIBUTE_BLOCK)]))
       [("tasks", VInt 5)]) "tasks" VNone
  = match Py.get "tasks" [("tasks", VInt 5)] with
    | Some v => v
    | None =>
        Job.get (Job.mk [("tasks", VInt 1); ("nodes", VInt 2)]
                        [("distribute_local", VDist DISTRIBUTE_BLOCK)])
          "tasks" VNone
    end /\
  attrs
    (Job.__init__
       (Some (Job.mk [("tasks", VInt 1); ("nodes", VInt 2)]
                     [("distribute_local", VDist DISTRIBUTE_BLOCK)]))
       [("tasks", VInt 5)]) = [].
Proof.
  apply (job_init_lookup
           (Job.mk [("tasks", VInt 1); ("nodes", VInt 2)]
                   [("distribute_local", VDist DISTRIBUTE_BLOCK)])
           [("tasks", VInt 5)] "tasks" VNone).
  - repeat constructor; simpl; intuition discriminate.
  - repeat constructor; simpl; intuition discriminate.
Defined.

Lemma option_in job attr fmt o :
  In o match Job.get job attr VNone with
       | VNone => []
       | value => [Launcher.format fmt value]
       end ->
  exists v, o = Launcher.format fmt v.
Proof.
  destruct (Job.get job attr VNone) as [|z|s|b|c]; simpl;
    [now intros [] | | | |]; intros [<-|[]]; eexists; reflexivity.
Qed.

(** X25.  For a job with the account [a], the options of [srun] hold
    [--acount=a]; no option of [srun] made from a job starts with
    [--account]. *)
Theorem srun_account_option (job : Job.t) (a : string) :
  Job.get job "account" VNone = VStr a ->
  In ("--acount=" ++ a)%string
     (Launcher.get_options_from_job SrunLauncher.job_options_map job) /\
  forall o,
    In o (Launcher.get_options_from_job SrunLauncher.job_options_map job) ->
    String.prefix "--account" o = false.
Proof.
  intros A. split.
  - unfold Launcher.get_options_from_job. apply in_flat_map.
    exists ("account", "--acount={}"). split.
    + unfold SrunLauncher.job_options_map. simpl. tauto.
    + cbn [fst snd]. rewrite A. left. simpl. now rewrite PathFacts.append_nil_r.
  - intros o I. unfold Launcher.get_options_from_job in I.
    apply in_flat_map in I as (kv & K & I).
    unfold SrunLauncher.job_options_map in K. simpl in K.
    repeat (destruct K as [<-|K];
            [apply option_in in I as (v & ->); reflexivity|]).
    destruct K.
Qed.

Lemma srun_account_option_witness :
  In ("--acount=" ++ "ec")%string
     (Launcher.get_options_from_job SrunLauncher.job_options_map
        (Job.__init__ None [("tasks", VInt 4); ("account", VStr "ec")])) /\
  forall o,
    In o (Launcher.get_options_from_job SrunLauncher.job_options_map
            (Job.__init__ None [("tasks", VInt 4); ("account", VStr "ec")])) ->
    String.prefix "--account" o = false.
Proof.
  apply (srun_account_option
           (Job.__init__ None [("tasks", VInt 4); ("account", VStr "ec")])
           "ec").
  reflexivity.
Defined.

(** X26.  For a job whose two distribution entries are missing or
    members of [CpuDistribution], [SrunLauncher.get_distribution_options]
    raises nothing; it gives no option when both are missing or one of
    them is [DISTRIBUTE_USER], and otherwise the one option
    [--distribution=r:l], where a missing entry counts as
    [DISTRIBUTE_DEFAULT]. *)
Theorem srun_distribution_typed (job : Job.t)
    (dr dl : option CpuDistribution) :
  Py.get "distribute_remote" (data job) = option_map VDist dr ->
  Py.get "distribute_local" (data job) = option_map VDist dl ->
  SrunLauncher.get_distribution_options job
  = Done
      match dr, dl with
      | None, None => []
      | _, _ =>
          match
            SrunLauncher.distribution_options_map
              (match dr with Some d => d | None => DISTRIBUTE_DEFAULT end),
            SrunLauncher.distribution_options_map
              (match dl with Some d => d | None => DISTRIBUTE_DEFAULT end)
          with
          | Some r, Some l => [("--distribution=" ++ r ++ ":" ++ l)%string]
          | _, _ => []
          end
      end.
Proof.
  intros R L. unfold SrunLauncher.get_distribution_options, Job.get.
  rewrite R, L.
  destruct dr as [[]|], dl as [[]|]; reflexivity.
Qed.

Lemma srun_distribution_typed_witness :
  SrunLauncher.get_distribution_options
    (Job.__init__ None [("distribute_local", VDist DISTRIBUTE_CYCLIC)])
  = Done ["--distribution=*:cyclic"].
Proof.
  apply (srun_distribution_typed
           (Job.__init__ None [("distribute_local", VDist DISTRIBUTE_CYCLIC)])
           None (Some DISTRIBUTE_CYCLIC)); reflexivity.
Defined.

(** X27.  An entry [None] is not a missing entry: when one of the two
    distribution entries is [None] and the other a member of
    [CpuDistribution] other than [DISTRIBUTE_USER],
    [SrunLauncher.get_distribution_options] raises [KeyError(None)]. *)
Theorem srun_distribution_none_entry (job : Job.t) (d : CpuDistribution) :
  d <> DISTRIBUTE_USER ->
  (Py.get "distribute_remote" (data job) = Some VNone /\
   Py.get "distribute_local" (data job) = Some (VDist d)) \/
  (Py.get "distribute_remote" (data job) = Some (VDist d) /\
   Py.get "distribute_local" (data job) = Some VNone) ->
  SrunLauncher.get_distribution_options job = Fail (KeyError VNone).
Proof.
  intros N [[R L]|[R L]];
    unfold SrunLauncher.get_distribution_options, Job.get;
    rewrite R, L; destruct d; try reflexivity; now elim N.
Qed.

Lemma srun_distribution_none_entry_witness :
  SrunLauncher.get_distribution_options
    (Job.__init__ None [("distribute_remote", VNone);
                        ("distribute_local", VDist DISTRIBUTE_BLOCK)])
  = Fail (KeyError VNone).
Proof.
  apply (srun_distribution_none_entry
           (Job.__init__ None [("distribute_remote", VNone);
                               ("distribute_local", VDist DISTRIBUTE_BLOCK)])
           DISTRIBUTE_BLOCK).
  - discriminate.
  - left. split; reflexivity.
Defined.

(** X28.  For a job as [Job(job, **kwargs)] makes it,
    [MpirunLauncher.get_distribution_options] gives no option, whatever
    the entries of the job: it looks for attributes, and the job has
    entries. *)
Theorem mpirun_no_distribution (job : option Job.t)
    (kwargs : Py.dict value) :
  MpirunLauncher.get_distribution_options (Job.__init__ job kwargs) = Done [].
Proof.
  unfold MpirunLauncher.get_distribution_options, Job.hasattr, Job.__init__.
  destruct job as [j|]; [destruct (Py.nonempty (data j))|]; reflexivity.
Qed.

Lemma apply_fails (o : EnvOverride.t) (env : Py.dict string) :
  EnvOverride.apply o env = Fail (AttributeError "EnvOverride" "EnvOverride").
Proof. reflexivity. Qed.

(** X29.  [EnvHandler.execute] gives a copy of the environment when the
    handler has no override, and raises [AttributeError] otherwise: the
    first override looks up [self.EnvOverride], whatever its mode. *)
Theorem execute_cases (overrides : list EnvOverride.t)
    (env : Py.dict string) :
  EnvHandler.execute (EnvHandler.mk overrides) env
  = match overrides with
    | [] => Done env
    | _ :: _ => Fail (AttributeError "EnvOverride" "EnvOverride")
    end.
Proof.
  unfold EnvHandler.execute. destruct overrides as [|o rest]; [reflexivity|].
  cbn [EnvHandler._overrides EnvHandler.apply_all].
  now rewrite apply_fails.
Qed.

Lemma truthy_not_none v : truthy v = true -> is_none v = false.
Proof. now destruct v. Qed.

(** X30.  [DefaultArch.process] raises [AttributeError] for [job.set]
    when the architecture has a partition or an account; when it
    returns, the job is [Job(job, **kwargs)], without partition or
    account of the architecture, there is a handler exactly when
    [cpus_per_task] of the job is true, and [execute] of that handler
    raises. *)
Theorem process_cases (self : DefaultArch.t) (job : option Job.t)
    (kwargs : Py.dict value) :
  (Py.truthy_str (DefaultArch._partition self)
   || Py.truthy_str (DefaultArch._account self) = true ->
   DefaultArch.process self job kwargs = Fail (AttributeError "Job" "set")) /\
  (Py.truthy_str (DefaultArch._partition self)
   || Py.truthy_str (DefaultArch._account self) = false ->
   exists handlers,
     DefaultArch.process self job kwargs
     = Done (Job.__init__ job kwargs, handlers) /\
     (handlers = [] <->
      truthy (Job.get (Job.__init__ job kwargs) "cpus_per_task" VNone)
      = false) /\
     forall h env,
       In h handlers ->
       EnvHandler.execute h env
       = Fail (AttributeError "EnvOverride" "EnvOverride")).
Proof.
  assert (S : DefaultArch.job_set (Job.__init__ job kwargs)
              = Fail (AttributeError "Job" "set")).
  { unfold DefaultArch.job_set, Job.getattr, Job.__init__.
    destruct job as [j|]; [destruct (Py.nonempty (data j))|]; reflexivity. }
  unfold DefaultArch.process. rewrite S. split.
  - intros T. destruct (Py.truthy_str (DefaultArch._partition self));
      [reflexivity|].
    simpl in T. rewrite T. reflexivity.
  - intros T. apply orb_false_elim in T as [P A]. rewrite P, A.
    cbn [and_then].
    destruct (truthy (Job.get (Job.__init__ job kwargs) "cpus_per_task" VNone))
      eqn:C.
    + unfold EnvOverride.__init__. rewrite (truthy_not_none _ C).
      cbn [and_then EnvHandler.__init__ app]. eexists. split; [reflexivity|].
      split; [split; discriminate|].
      intros h env [<-|[]]. reflexivity.
    + exists []. split; [reflexivity|]. split; [tauto|]. now intros h env [].
Qed.

End LaunchFacts.
